(** * Verification of the itinerary scheduler of kdt-hackathon-ai-engine

    The repository ships the PWA front end ([app.js], here
    [src/unnamed/part_000]) and the API documentation of the back end
    ([src/unnamed/part_001]), which quotes the Python scoring function.
    The front-end passes (schedule grouping, home calendar update) and the
    quoted scoring function are embedded from the source.  The back-end
    scheduling service (duration extraction, itinerary builder, feedback
    reviser) is not part of the sources; it is modelled from the
    specification, in definitions whose doc comments say so. *)

From Stdlib Require Import List Arith Lia ZArith String Ascii Sorting.Permutation
  Sorting.Sorted Bool.
From stdpp Require Import base gmap strings list.

Import ListNotations.
Open Scope string_scope.
Open Scope list_scope.

(* ================================================================== *)
(** ** Front end: grouping of the flat itinerary
    ([renderScheduleTable] and [renderMiniTime] of app.js run the same
    grouping loop). *)
(* ================================================================== *)

Module Grouping.

(** An element of [sched.itinerary] as the front end reads it. *)
Record item := mk_item {
  day : Z;
  date : string;
  schedule_type : string;
  name : string;
  start_time : string;
  address : string
}.

Definition FARM : string := "농가".
Definition TOUR : string := "관광지".

(** [{ type, startDay, endDay, items }] *)
Record group := mk_group {
  gtype : string;
  startDay : Z;
  endDay : Z;
  gitems : list item
}.

Definition is_farm (it : item) : bool := String.eqb (schedule_type it) FARM.

(** The loop state: [groupedSchedule] and [currentGroup] ([null] = None). *)
Definition gstate : Type := (list group * option group)%type.

Definition push_current (gs : list group) (cur : option group) : list group :=
  match cur with
  | Some g => (gs ++ [g])
  | None => gs
  end.

(** One iteration of [itinerary.forEach(item => ...)]. *)
Definition group_step (st : gstate) (it : item) : gstate :=
  let '(gs, cur) := st in
  if is_farm it then
    match cur with
    | Some g =>
        if String.eqb (gtype g) FARM then
          (* currentGroup.endDay = item.day; currentGroup.items.push(item) *)
          (gs, Some (mk_group (gtype g) (startDay g) (day it) (gitems g ++ [it])))
        else (push_current gs cur, Some (mk_group FARM (day it) (day it) [it]))
    | None => (push_current gs cur, Some (mk_group FARM (day it) (day it) [it]))
    end
  else
    match cur with
    | Some g =>
        if String.eqb (gtype g) TOUR && Z.eqb (startDay g) (day it) then
          (gs, Some (mk_group (gtype g) (startDay g) (endDay g) (gitems g ++ [it])))
        else (push_current gs cur, Some (mk_group TOUR (day it) (day it) [it]))
    | None => (push_current gs cur, Some (mk_group TOUR (day it) (day it) [it]))
    end.

(** The whole pass, with the final [if (currentGroup) groupedSchedule.push(currentGroup)]. *)
Definition group_schedule (itinerary : list item) : list group :=
  let '(gs, cur) := fold_left group_step itinerary ([], None) in
  push_current gs cur.

(** Well-formedness of one group as the loop builds it. *)
Definition group_ok (g : group) : Prop :=
  gitems g <> [] /\
  (match gitems g with it :: _ => startDay g = day it | [] => True end) /\
  ((gtype g = FARM /\ Forall (fun it => is_farm it = true) (gitems g) /\
    exists (pre : list item) (lst : item), gitems g = (pre ++ [lst]) /\ endDay g = day lst) \/
   (gtype g = TOUR /\ endDay g = startDay g /\
    Forall (fun it => is_farm it = false /\ day it = startDay g) (gitems g))).

(** Two neighbouring groups could not have been merged by the loop. *)
Definition separated (g1 g2 : group) : Prop :=
  ~ (gtype g1 = FARM /\ gtype g2 = FARM) /\
  ~ (gtype g1 = TOUR /\ gtype g2 = TOUR /\ startDay g1 = startDay g2).

Fixpoint adjacent_separated (gs : list group) : Prop :=
  match gs with
  | g1 :: ((g2 :: _) as rest) => separated g1 g2 /\ adjacent_separated rest
  | _ => True
  end.

(** The groups emitted so far, with the open group pushed. *)
Definition out (st : gstate) : list group := push_current (fst st) (snd st).

(** Invariant of the loop state. *)
Definition inv_ok (st : gstate) : Prop :=
  Forall group_ok (out st) /\ adjacent_separated (out st) /\ (snd st = None -> fst st = []).

End Grouping.

(* ================================================================== *)
(** ** Front end: materialising the itinerary into the home calendar
    ([updateHomeCalendar] of app.js; [upsertCalendarEvents] is the
    timeline variant used when a history record is restored). *)
(* ================================================================== *)

Module Calendar.

(** A JS string is a sequence of UTF-16 code units; [slice] counts code units. *)
Definition jsstr : Type := list N.

(** The code units of an ASCII literal (for examples). *)
Definition js (s : string) : jsstr := map N_of_ascii (list_ascii_of_string s).

(** [s.slice(a, b)] for [0 <= a <= b]. *)
Definition slice (s : jsstr) (a b : nat) : jsstr := firstn (b - a) (skipn a s).

(** JS truthiness of an optional string field: defined and non-empty. *)
Definition truthy (o : option jsstr) : bool :=
  match o with Some (_ :: _) => true | _ => false end.

(** An element of [STATE.last_schedule.itinerary]; a missing field is [None]. *)
Record itin_item := mk_itin_item {
  day : Z;
  date : option jsstr;
  schedule_type : option jsstr;
  name : option jsstr;
  start_time : option jsstr
}.

(** A calendar event [{ activity, date, type, day }]. *)
Record event := mk_event {
  activity : option jsstr;
  ev_date : jsstr;
  ev_type : option jsstr;
  ev_day : Z
}.

(** [STATE.calendar]: year-month key -> day key -> events. *)
Abbreviation calendar := (gmap jsstr (gmap jsstr (list event))).

Definition ostr (o : option jsstr) : jsstr := match o with Some s => s | None => [] end.

(** [event.activity === item.name && event.type === item.schedule_type] *)
Definition same_entry (it : itin_item) (e : event) : bool :=
  bool_decide (activity e = name it) && bool_decide (ev_type e = schedule_type it).

Definition year_month (it : itin_item) : jsstr := slice (ostr (date it)) 0 7.
Definition day_key (it : itin_item) : jsstr := slice (ostr (date it)) 8 10.

(** The event pushed for [item]. *)
Definition new_event (it : itin_item) : event :=
  mk_event (name it)
    (ostr (date it) ++ (if truthy (start_time it) then N_of_ascii " " :: ostr (start_time it) else []))
    (schedule_type it) (day it).

(** The body of [STATE.last_schedule.itinerary.forEach(item => ...)]. *)
Definition update_item (cal : calendar) (it : itin_item) : calendar :=
  if truthy (date it) && truthy (name it) then
    let ym := year_month it in
    let d := day_key it in
    let m := default ∅ (cal !! ym) in
    let evs := default [] (m !! d) in
    let evs' := if existsb (same_entry it) evs then evs else evs ++ [new_event it] in
    <[ym := <[d := evs']> m]> cal
  else cal.

(** [updateHomeCalendar()]: nothing when there is no itinerary. *)
Definition updateHomeCalendar (itinerary : option (list itin_item)) (cal : calendar) : calendar :=
  match itinerary with
  | None => cal
  | Some l => fold_left update_item l cal
  end.

(** The (activity, type) identity of an event. *)
Definition entry_key (e : event) : option jsstr * option jsstr := (activity e, ev_type e).

(** No day of the calendar holds two events with the same (activity, type). *)
Definition no_dup_entries (cal : calendar) : Prop :=
  forall ym m d evs, cal !! ym = Some m -> m !! d = Some evs -> NoDup (map entry_key evs).

(** The item is already materialised in the calendar. *)
Definition present (cal : calendar) (it : itin_item) : Prop :=
  truthy (date it) && truthy (name it) = true ->
  exists m evs, cal !! year_month it = Some m /\ m !! day_key it = Some evs /\
    existsb (same_entry it) evs = true.

End Calendar.

(* ================================================================== *)
(** ** Back end: preference scoring ([score_and_rank_attractions] as
    quoted in the API documentation, app/utils/attraction_scoring.py) *)
(* ================================================================== *)

Module Scoring.

(** The attraction fields the scorer reads. *)
Record attraction := mk_attraction {
  attr_name : string;
  landscape_keywords : string;
  travel_style_keywords : string
}.

Fixpoint split_on (sep : ascii) (s : string) (cur : string) : list string :=
  match s with
  | EmptyString => [cur]
  | String c rest =>
      if Ascii.eqb c sep then cur :: split_on sep rest EmptyString
      else split_on sep rest (cur ++ String c EmptyString)
  end.

(** Modelled from the spec: [parse_keywords] (not in the sources).  The
    keyword columns are [;]-separated lists such as
    ["축제·이벤트;문화·역사;체험형"]; empty pieces are dropped. *)
Definition parse_keywords (s : string) : list string :=
  filter (fun k => negb (String.eqb k "")) (split_on ";" s "").

Fixpoint strip_spaces (s : string) : string :=
  match s with
  | EmptyString => EmptyString
  | String c rest => if Ascii.eqb c " " then strip_spaces rest else String c (strip_spaces rest)
  end.

(** Modelled from the spec: [keywords_match] (not in the sources), tag
    matching as string equality after whitespace normalisation. *)
Definition keywords_match (a b : string) : bool := String.eqb (strip_spaces a) (strip_spaces b).

(** The score loop body of [score_and_rank_attractions]. *)
Definition score_attraction (user_travel_styles user_landscapes : list string)
    (a : attraction) : nat :=
  let attr_styles := parse_keywords (travel_style_keywords a) in
  let matches := length (filter (fun style => existsb (keywords_match style) attr_styles)
                                user_travel_styles) in
  let score := matches * 2 in
  match user_landscapes with
  | [] => score
  | _ =>
      let attr_landscapes := parse_keywords (landscape_keywords a) in
      if existsb (fun landscape => existsb (keywords_match landscape) attr_landscapes)
                 user_landscapes
      then score + 1 else score
  end.

(** Python's [sorted(xs, key=k, reverse=True)]: a stable sort by
    descending key (elements of equal key keep their input order). *)
Fixpoint insert_desc {A} (key : A -> nat) (x : A) (l : list A) : list A :=
  match l with
  | [] => [x]
  | y :: l' => if Nat.leb (key y) (key x) then x :: l else y :: insert_desc key x l'
  end.

Fixpoint sort_desc {A} (key : A -> nat) (l : list A) : list A :=
  match l with
  | [] => []
  | x :: l' => insert_desc key x (sort_desc key l')
  end.

(** An [AttractionScore]: the attraction and its score. *)
Definition scored : Type := (attraction * nat)%type.

Definition score_and_rank_attractions (attractions : list attraction)
    (user_travel_styles user_landscapes : list string) : list scored :=
  let scored_list := map (fun a => (a, score_attraction user_travel_styles user_landscapes a))
                         attractions in
  sort_desc snd scored_list.

(** Input positions attached to a list. *)
Definition indexed {A} (l : list A) : list (nat * A) := combine (seq 0 (length l)) l.

(** The order the spec promises: higher score first, then lower input position. *)
(** The score of an indexed scored pair. *)
Definition rank_key (p : nat * scored) : nat := snd (snd p).

Definition rank_before (p q : nat * scored) : Prop :=
  snd (snd q) < snd (snd p) \/ (snd (snd p) = snd (snd q) /\ fst p < fst q).

(** The score as the spec's sentence words it: twice the number of the
    candidate's travel-style tags matching a user style, plus one for a
    landscape overlap. *)
Definition spec_score (user_travel_styles user_landscapes : list string) (a : attraction) : nat :=
  let attr_styles := parse_keywords (travel_style_keywords a) in
  let attr_landscapes := parse_keywords (landscape_keywords a) in
  2 * length (filter (fun t => existsb (keywords_match t) user_travel_styles) attr_styles) +
  (if existsb (fun l => existsb (keywords_match l) attr_landscapes) user_landscapes then 1 else 0).

(** The score as the code computes it, in words: twice the number of the
    user's styles matched by some candidate tag, plus one for a landscape
    overlap. *)
Definition user_side_score (user_travel_styles user_landscapes : list string) (a : attraction) : nat :=
  let attr_styles := parse_keywords (travel_style_keywords a) in
  let attr_landscapes := parse_keywords (landscape_keywords a) in
  2 * length (filter (fun u => existsb (keywords_match u) attr_styles) user_travel_styles) +
  (if existsb (fun l => existsb (keywords_match l) attr_landscapes) user_landscapes then 1 else 0).

End Scoring.

(* ================================================================== *)
(** ** Back end: trip-length extraction (DurationExtractor) *)
(* ================================================================== *)

Module Duration.

(** A left-to-right scan of a UTF-8 text: at each byte position try the
    recogniser, else move one byte on. *)
Fixpoint scan (recognise : string -> option nat) (s : string) : option nat :=
  match s with
  | EmptyString => None
  | String _ rest =>
      match recognise s with
      | Some v => Some v
      | None => scan recognise rest
      end
  end.

(** The first table word that starts the text. *)
Fixpoint word_at (table : list (string * nat)) (s : string) : option nat :=
  match table with
  | [] => None
  | (w, v) :: table' => if String.prefix w s then Some v else word_at table' s
  end.

Definition is_digit (c : ascii) : bool :=
  Nat.leb 48 (nat_of_ascii c) && Nat.leb (nat_of_ascii c) 57.

(** A maximal run of decimal digits at the start of the text, its value and the rest. *)
Fixpoint take_number (s : string) (acc : nat) : nat * string :=
  match s with
  | String c rest =>
      if is_digit c then take_number rest (acc * 10 + (nat_of_ascii c - 48)) else (acc, s)
  | EmptyString => (acc, EmptyString)
  end.

(** Modelled from the spec: the numeral-word table of DurationExtractor
    ("하루"=1, "이틀"=2, ..., "열흘"=10). *)
Definition numeral_words : list (string * nat) :=
  [("하루", 1); ("이틀", 2); ("사흘", 3); ("나흘", 4); ("닷새", 5);
   ("엿새", 6); ("이레", 7); ("여드레", 8); ("아흐레", 9); ("열흘", 10)].

(** Modelled from the spec: a digit-based phrase "N일" (so "3박4일" gives
    the travel-day count 4); a count of zero days is no trip length (the
    contract's domain starts at 1). *)
Definition digits_day_at (s : string) : option nat :=
  match s with
  | String c _ =>
      if is_digit c then
        let '(n, rest) := take_number s 0 in
        if String.prefix "일" rest && Nat.leb 1 n then Some n else None
      else None
  | EmptyString => None
  end.

Definition duration_at (s : string) : option nat :=
  match word_at numeral_words s with
  | Some v => Some v
  | None => digits_day_at s
  end.

(** The first duration phrase of the text, unclamped. *)
Definition find_duration (text : string) : option nat := scan duration_at text.

(** Modelled from the spec: [extract_duration] (the back end's
    [_extract_duration_from_request] is not in the sources): absence when
    no phrase is found, values above 10 clamped to 10. *)
Definition extract_duration (text : string) : option nat :=
  match find_duration text with
  | Some v => Some (Nat.min v 10)
  | None => None
  end.

End Duration.

(* ================================================================== *)
(** ** Back end: ItineraryBuilder and FeedbackReviser
    Modelled from the spec: the scheduling service
    ([app/services/simple_scheduling_service.py]) is not in the sources;
    the definitions below follow sections 3, 4.4 and 4.5 of the spec.
    What the spec leaves open is a parameter of the section: the calendar
    date of a day, the locality segment of an address, the start-period
    resolver and the number of tour days the builder reserves. *)
(* ================================================================== *)

Module Scheduler.

Inductive schedule_type := Farm | Tour.

Record schedule_item := mk_si {
  day : nat;
  date : string;
  stype : schedule_type;
  name : string;
  start_time : string;
  address : string
}.

Record farm_selection := mk_farm {
  farm_name : string;
  farm_address : string;
  farm_start_time : string
}.

Record tour_selection := mk_tour {
  tour_name : string;
  tour_address : string;
  tour_start_time : string
}.

Record summary := mk_summary {
  farm_days_count : nat;
  tour_days_count : nat;
  region : string
}.

Record itinerary := mk_itinerary {
  itinerary_id : string;
  total_days : nat;
  items : list schedule_item;
  summary_of : summary
}.

Inductive error := NoFarmSelectedError | FeedbackTargetInvalidError.

(** A candidate the reviser may substitute: a tour entry with its keywords. *)
Record candidate := mk_candidate {
  cand_tour : tour_selection;
  cand_landscape_keywords : string;
  cand_travel_style_keywords : string
}.

Definition is_farm_item (i : schedule_item) : bool :=
  match stype i with Farm => true | Tour => false end.

(** The marker placed on a non-farm day that receives no tour. *)
Definition FREE_DAY : string := "자유 일정".

(** Keep the first occurrence of each string. *)
Fixpoint dedup_first (seen : list string) (l : list string) : list string :=
  match l with
  | [] => []
  | x :: l' => if existsb (String.eqb x) seen then dedup_first seen l'
               else x :: dedup_first (x :: seen) l'
  end.

Section Builder.

(** The resolved calendar date of day [k] of a trip starting at [start]. *)
Variable date_of_day : string -> nat -> string.
(** The administrative-region segment of an address. *)
Variable locality : string -> string.
(** StartPeriodResolver: (text, region, today) -> (start date, special event). *)
Variable resolve_start : string -> string -> string -> string * option tour_selection.
(** Tour days reserved by the builder, from (number of tour entries, duration). *)
Variable reserved_tour_days : nat -> nat -> nat.

(** Step 4: tours of one locality are placed next to each other, localities
    in order of first appearance. *)
Definition cluster (tours : list tour_selection) : list tour_selection :=
  concat (map (fun r => List.filter (fun t => String.eqb (locality (tour_address t)) r) tours)
              (dedup_first [] (map (fun t => locality (tour_address t)) tours))).

(** Step 3: the special event first, then the clustered tours. *)
Definition tour_content (tours : list tour_selection) (special : option tour_selection)
    : list tour_selection :=
  match special with
  | Some ev => ev :: cluster tours
  | None => cluster tours
  end.

(** Steps 1-2: the farm block starts on day 1 without tours, otherwise on
    day 2 after the arrival day; its size is the duration minus the
    reserved tour days. *)
Definition farm_start (n_tours : nat) : nat := if Nat.eqb n_tours 0 then 1 else 2.

Definition farm_size (n_tours duration : nat) : nat :=
  if Nat.eqb n_tours 0 then duration else duration - reserved_tour_days n_tours duration.

(** The non-farm days: the arrival day and the days after the farm block. *)
Definition non_farm_days (n_tours duration : nat) : list nat :=
  if Nat.eqb n_tours 0 then []
  else 1 :: seq (2 + farm_size n_tours duration) (duration - 1 - farm_size n_tours duration).

Definition farm_item (start : string) (f : farm_selection) (k : nat) : schedule_item :=
  mk_si k (date_of_day start k) Farm (farm_name f) (farm_start_time f) (farm_address f).

Definition tour_item (start : string) (k : nat) (t : tour_selection) : schedule_item :=
  mk_si k (date_of_day start k) Tour (tour_name t) (tour_start_time t) (tour_address t).

Definition free_item (start : string) (k : nat) : schedule_item :=
  mk_si k (date_of_day start k) Tour FREE_DAY "" "".

(** Step 3: one tour entry per non-farm day in order; surplus entries are
    packed onto the last non-farm day; days left over get the free marker. *)
Fixpoint place (start : string) (days : list nat) (tc : list tour_selection)
    : list schedule_item :=
  match days with
  | [] => []
  | [k] => match tc with
           | [] => [free_item start k]
           | _ => map (tour_item start k) tc
           end
  | k :: days' => match tc with
                  | [] => free_item start k :: place start days' []
                  | t :: tc' => tour_item start k t :: place start days' tc'
                  end
  end.

(** Step 5: the flat item sequence sorted by day, one farm record per farm day. *)
Definition schedule_items (f : farm_selection) (tc : list tour_selection)
    (duration : nat) (start : string) : list schedule_item :=
  let n := length tc in
  let placed := place start (non_farm_days n duration) tc in
  List.filter (fun i => Nat.ltb (day i) (farm_start n)) placed ++
  map (farm_item start f) (seq (farm_start n) (farm_size n duration)) ++
  List.filter (fun i => Nat.leb (farm_start n) (day i)) placed.

Definition build (farm : option farm_selection) (tours : list tour_selection)
    (duration : nat) (start : string) (special : option tour_selection)
    (region_name : string) (id : string) : error + itinerary :=
  match farm with
  | None => inl NoFarmSelectedError
  | Some f =>
      let tc := tour_content tours special in
      let fs := farm_size (length tc) duration in
      inr (mk_itinerary id duration (schedule_items f tc duration start)
             (mk_summary fs (duration - fs) region_name))
  end.

(** [generate_schedule]: the duration comes from the extractor with the
    documented default of 1 day. *)
Definition generate_schedule (farm : option farm_selection) (tours : list tour_selection)
    (natural_text region_name today id : string) : error + itinerary :=
  let duration := match Duration.extract_duration natural_text with
                  | Some n => n
                  | None => 1
                  end in
  let '(start, special) := resolve_start natural_text region_name today in
  build farm tours duration start special region_name id.

End Builder.

(** FeedbackReviser: day references "첫째날" = 1, "둘째날" = 2, ..., or "Day N". *)
Definition ordinal_day_words : list (string * nat) :=
  [("첫째날", 1); ("둘째날", 2); ("셋째날", 3); ("넷째날", 4); ("다섯째날", 5);
   ("여섯째날", 6); ("일곱째날", 7); ("여덟째날", 8); ("아홉째날", 9); ("열째날", 10)].

Definition day_n_at (s : string) : option nat :=
  if String.prefix "Day " s then
    match substring 4 (String.length s - 4) s with
    | String c _ as rest =>
        if Duration.is_digit c then Some (fst (Duration.take_number rest 0)) else None
    | EmptyString => None
    end
  else None.

Definition day_ref_at (s : string) : option nat :=
  match Duration.word_at ordinal_day_words s with
  | Some v => Some v
  | None => day_n_at s
  end.

(** The first day reference of the feedback text. *)
Definition parse_day_ref (feedback : string) : option nat := Duration.scan day_ref_at feedback.

(** The summary recomputed from the items (one farm record per farm day). *)
Definition recompute_summary (it : itinerary) : itinerary :=
  let fd := length (List.filter is_farm_item (items it)) in
  mk_itinerary (itinerary_id it) (total_days it) (items it)
    (mk_summary fd (total_days it - fd) (region (summary_of it))).

(** The items of day [d] replaced, in place, by the single item [x]. *)
Fixpoint replace_day (d : nat) (x : schedule_item) (inserted : bool)
    (l : list schedule_item) : list schedule_item :=
  match l with
  | [] => []
  | i :: l' =>
      if Nat.eqb (day i) d then
        if inserted then replace_day d x true l' else x :: replace_day d x true l'
      else i :: replace_day d x inserted l'
  end.

Section Reviser.

(** The administrative-region segment of an address. *)
Variable locality : string -> string.

Definition candidate_attraction (c : candidate) : Scoring.attraction :=
  Scoring.mk_attraction (tour_name (cand_tour c)) (cand_landscape_keywords c)
    (cand_travel_style_keywords c).

(** Candidates ranked with PreferenceScorer. *)
Definition rank_candidates (styles landscapes : list string) (cs : list candidate)
    : list candidate :=
  map fst (Scoring.sort_desc snd
    (map (fun c => (c, Scoring.score_attraction styles landscapes (candidate_attraction c))) cs)).

Definition unused (it : itinerary) (c : candidate) : bool :=
  negb (existsb (fun i => String.eqb (name i) (tour_name (cand_tour c))) (items it)).

(** Unused candidates of the slot's locality, best first. *)
Definition alternatives (cands : list candidate) (styles landscapes : list string)
    (it : itinerary) (slot : schedule_item) : list candidate :=
  rank_candidates styles landscapes
    (List.filter (fun c => unused it c &&
                      String.eqb (locality (tour_address (cand_tour c))) (locality (address slot)))
            cands).

Definition replacement (slot : schedule_item) (c : candidate) : schedule_item :=
  mk_si (day slot) (date slot) Tour (tour_name (cand_tour c))
    (tour_start_time (cand_tour c)) (tour_address (cand_tour c)).

(** [revise_schedule]: without a day reference the content is kept; a
    reference to a missing day or a farm day is refused; a tour day gets
    the top-ranked unused candidate of its locality (kept as it is when
    there is none).  The id is kept and the summary recomputed. *)
Definition revise_schedule (cands : list candidate) (styles landscapes : list string)
    (it : itinerary) (feedback : string) : error + itinerary :=
  match parse_day_ref feedback with
  | None => inr (recompute_summary it)
  | Some d =>
      match List.filter (fun i => Nat.eqb (day i) d) (items it) with
      | [] => inl FeedbackTargetInvalidError
      | (slot :: _) as day_items =>
          if existsb is_farm_item day_items then inl FeedbackTargetInvalidError
          else
            match alternatives cands styles landscapes it slot with
            | [] => inr (recompute_summary it)
            | c :: _ =>
                inr (recompute_summary
                       (mk_itinerary (itinerary_id it) (total_days it)
                          (replace_day d (replacement slot c) false (items it))
                          (summary_of it)))
            end
      end
  end.

End Reviser.

End Scheduler.

(* ================================================================== *)
(** ** A concrete configuration of the scheduling service
    Modelled from the spec: the spec leaves the calendar, the locality of
    an address, the start-period resolver and the reserved tour days open;
    this configuration fixes them as in the spec's scenarios (the Gimje
    October festival as special event, two reserved tour days when tours
    exist) and is used to run the scheduler on concrete requests. *)
(* ================================================================== *)

Module SampleConfig.
Import Scheduler.

(** The k-th day of a trip is named by its start date and its index. *)
Definition sample_date (start : string) (k : nat) : string :=
  start ++ "#" ++ String (ascii_of_nat (48 + k)) "".

(** The first space-separated word of an address ("김제시 부량면 ..." gives "김제시"). *)
Fixpoint sample_locality (addr : string) : string :=
  match addr with
  | EmptyString => EmptyString
  | String c rest => if Ascii.eqb c " "%char then EmptyString else String c (sample_locality rest)
  end.

Definition gimje_festival : tour_selection :=
  mk_tour "김제지평선축제" "김제시 부량면 벽골제로 442" "10:00".

Definition mentions_october (text : string) : bool :=
  match Duration.scan (fun s => if String.prefix "10월" s then Some 10 else None) text with
  | Some _ => true
  | None => false
  end.

(** Gimje with an October reference starts in October with the festival;
    otherwise the trip starts today with no special event. *)
Definition sample_resolve (text region_name today : string) : string * option tour_selection :=
  if String.eqb region_name "김제시" && mentions_october text
  then ("2026-10-01", Some gimje_festival)
  else (today, None).

(** Two tour days (arrival day and a day after the farm block) when tours exist. *)
Definition sample_reserved (n_tours duration : nat) : nat := if Nat.eqb n_tours 0 then 0 else 2.

Definition sample_farm : farm_selection := mk_farm "김제 과수농장" "김제시 백산면 과수로 12" "09:00".

Definition byeokgolje : tour_selection := mk_tour "벽골제" "김제시 부량면 벽골제로 442" "13:00".

Definition geumsansa : candidate :=
  mk_candidate (mk_tour "금산사" "김제시 금산면 모악15길 1" "11:00") "산" "힐링;역사".

Definition sample_generate (farm : option farm_selection) (tours : list tour_selection)
    (text region_name today id : string) : error + itinerary :=
  generate_schedule sample_date sample_locality sample_resolve sample_reserved
    farm tours text region_name today id.

End SampleConfig.

(* ================================================================== *)
(** ** Front end: JS values and the remaining app.js functions
    ([upsertCalendarEvents], the calendar cells of [calendarBlocksHTML]
    and [renderHome], [buildOnboardingPayload], the effective [callEngine]
    with its [mockPlan] fallback, the state update of
    [createScheduleWithUser] and [sendScheduleFeedback], the card
    checkboxes of [bindCardActions] with the [makePlan] payload, and the
    farm de-duplication of [renderScheduleTable]). *)
(* ================================================================== *)

Module JS.
Import Calendar.

(** UTF-16 code units of a UTF-8 encoded literal. *)
Fixpoint utf8_to_utf16 (bs : list N) : list N :=
  match bs with
  | [] => []
  | b :: rest =>
      if (b <? 128)%N then b :: utf8_to_utf16 rest
      else if (b <? 224)%N then
        match rest with
        | c :: rest' => ((b - 192) * 64 + (c - 128))%N :: utf8_to_utf16 rest'
        | [] => []
        end
      else if (b <? 240)%N then
        match rest with
        | c1 :: c2 :: rest' =>
            ((b - 224) * 4096 + (c1 - 128) * 64 + (c2 - 128))%N :: utf8_to_utf16 rest'
        | _ => []
        end
      else
        match rest with
        | c1 :: c2 :: c3 :: rest' =>
            let cp := ((b - 240) * 262144 + (c1 - 128) * 4096 + (c2 - 128) * 64 + (c3 - 128))%N in
            (55296 + (cp - 65536) / 1024)%N :: (56320 + (cp - 65536) mod 1024)%N ::
            utf8_to_utf16 rest'
        | _ => []
        end
  end.

(** A JS string literal. *)
Definition u (s : string) : jsstr := utf8_to_utf16 (map N_of_ascii (list_ascii_of_string s)).

(** JSON-like JS values (numbers are integer valued here). *)
#[warnings="-register-all"]
Inductive jsval :=
| JUndef
| JNull
| JBool (b : bool)
| JNum (z : Z)
| JStr (s : jsstr)
| JArr (l : list jsval)
| JObj (kvs : list (string * jsval)).

Definition js_truthy (v : jsval) : bool :=
  match v with
  | JUndef | JNull => false
  | JBool b => b
  | JNum z => negb (Z.eqb z 0%Z)
  | JStr s => match s with [] => false | _ => true end
  | JArr _ | JObj _ => true
  end.

(** [v.k] (and [v?.k]) for a property name [k]. *)
Definition get (v : jsval) (k : string) : jsval :=
  match v with
  | JObj kvs => match find (fun kv => String.eqb (fst kv) k) kvs with
                | Some kv => snd kv
                | None => JUndef
                end
  | _ => JUndef
  end.

(** [v[0]] where [v] is truthy (the code only indexes after an [&&] guard). *)
Definition index0 (v : jsval) : jsval :=
  match v with
  | JArr (x :: _) => x
  | JStr (c :: _) => JStr [c]
  | JObj _ => get v "0"
  | _ => JUndef
  end.

(** [a || b] and [a && b]. *)
Definition jor (a b : jsval) : jsval := if js_truthy a then a else b.
Definition jand (a b : jsval) : jsval := if js_truthy a then b else a.

(** [v === s] for a string [s]. *)
Definition strict_eq_str (v : jsval) (s : jsstr) : bool :=
  match v with JStr t => bool_decide (t = s) | _ => false end.

Definition empty_str : jsval := JStr [].

End JS.

Module FrontEnd.
Import Calendar JS.

(** *** [upsertCalendarEvents(timeline)] *)
Section Upsert.

(** A timeline item and its [datetime] field ([None] when missing). *)
Variable A : Type.
Variable datetime : A -> option jsstr.

(** [(item.datetime || "").slice(0, 10)] *)
Definition item_key (x : A) : jsstr := slice (ostr (datetime x)) 0 10.

(** The body of [(timeline || []).forEach(item => ...)]. *)
Definition upsert_item (cal : gmap jsstr (gmap jsstr (list A))) (x : A)
    : gmap jsstr (gmap jsstr (list A)) :=
  match item_key x with
  | [] => cal
  | key =>
      let yymm := slice key 0 7 in
      let m := default ∅ (cal !! yymm) in
      let evs := default [] (m !! key) in
      <[yymm := <[key := evs ++ [x]]> m]> cal
  end.

Definition upsertCalendarEvents (timeline : option (list A))
    (cal : gmap jsstr (gmap jsstr (list A))) : gmap jsstr (gmap jsstr (list A)) :=
  fold_left upsert_item (default [] timeline) cal.

End Upsert.

(** *** The home calendar cells ([calendarBlocksHTML] and the cell click of [renderHome]) *)

(** [const cal = STATE.calendar[yymm] || {}; const has = !!cal[d.key];]
    (a stored day value is an array, so it is truthy). *)
Definition cell_has {V} (cal : gmap jsstr (gmap jsstr V)) (yymm key : jsstr) : bool :=
  match cal !! yymm with
  | Some m => bool_decide (is_Some (m !! key))
  | None => false
  end.

(** [(STATE.calendar[yymm] || {})[date] || []] *)
Definition cell_events {V} (cal : gmap jsstr (gmap jsstr (list V))) (yymm key : jsstr) : list V :=
  default [] (cal !! yymm ≫= fun m => m !! key).

(** The class attribute [cal-cell ${d.inMonth ? "" : "muted"} ${has ? "has" : ""}]. *)
Definition cell_class (inMonth has : bool) : jsstr :=
  u "cal-cell " ++ (if inMonth then [] else u "muted") ++ u " " ++ (if has then u "has" else []).

(** The class list of an element: its space-separated non-empty tokens. *)
Fixpoint class_tokens_from (s : jsstr) (cur : jsstr) : list jsstr :=
  match s with
  | [] => match cur with [] => [] | _ => [rev cur] end
  | c :: s' =>
      if bool_decide (c = 32%N) then
        match cur with [] => class_tokens_from s' [] | _ => rev cur :: class_tokens_from s' [] end
      else class_tokens_from s' (c :: cur)
  end.

Definition class_tokens (s : jsstr) : list jsstr := class_tokens_from s [].

(** [$$(".cal-cell.inMonth")] selects the cells whose class list has both tokens. *)
Definition matches_cal_cell_inMonth (cls : jsstr) : bool :=
  bool_decide (u "cal-cell" ∈ class_tokens cls) && bool_decide (u "inMonth" ∈ class_tokens cls).

(** *** Month navigation of [renderHome] *)

(** The stored [ims_year] / [ims_month]: [None] when absent, [Some v] when
    the stored string is the number [v]. *)
Record nav_store := mk_nav { ims_year : option Z; ims_month : option Z }.

(** [Number(localStorage.getItem(k)) || fallback] ([Number(null)] is 0). *)
Definition number_or (stored : option Z) (fallback : Z) : Z :=
  match stored with
  | Some v => if Z.eqb v 0%Z then fallback else v
  | None => fallback
  end.

(** The [y], [m] that [renderHome] shows, given today's year and month. *)
Definition shown (st : nav_store) (now_year now_month : Z) : Z * Z :=
  (number_or (ims_year st) now_year, number_or (ims_month st) now_month).

(** [#prevMonth] and [#nextMonth] store the new year and month. *)
Definition click_prev (st : nav_store) (now_year now_month : Z) : nav_store :=
  let '(y, m) := shown st now_year now_month in
  let mm := (m - 1)%Z in
  if (mm <? 0)%Z then mk_nav (Some (y - 1)%Z) (Some 11%Z) else mk_nav (Some y) (Some mm).

Definition click_next (st : nav_store) (now_year now_month : Z) : nav_store :=
  let '(y, m) := shown st now_year now_month in
  let mm := (m + 1)%Z in
  if (11 <? mm)%Z then mk_nav (Some (y + 1)%Z) (Some 0%Z) else mk_nav (Some y) (Some mm).

(** *** [buildOnboardingPayload()] *)
Record onboarding_payload := mk_payload {
  real_name : jsval; pname : jsval; age : jsval; gender : jsval; sido : jsval;
  sigungu : jsval; with_whom : jsval; selected_views : jsval; selected_styles : jsval;
  selected_jobs : jsval; additional_requests : jsval
}.

Definition buildOnboardingPayload (profile prefs : jsval) : onboarding_payload :=
  let p := jor profile (JObj []) in
  let pf := jor prefs (JObj []) in
  mk_payload
    (jor (jor (get p "real_name") (get p "nick")) empty_str)
    (jor (get p "nick") empty_str)
    (jor (get p "age") empty_str)
    (if strict_eq_str (get p "gender") (u "M") then JStr (u "남")
     else if strict_eq_str (get p "gender") (u "F") then JStr (u "여")
     else jor (get p "gender") empty_str)
    (jor (jor (jand (get p "region") (get (get p "region") "sido")) (get p "sido")) empty_str)
    (jor (jor (jand (get p "region") (get (get p "region") "sigungu")) (get p "sigungu")) empty_str)
    (jor (jor (jand (get p "with") (index0 (get p "with"))) (get p "with")) empty_str)
    (jor (get pf "scenery") (JArr []))
    (jor (get pf "styles") (JArr []))
    (jor (get pf "jobs") (JArr []))
    (jor (get pf "free") (JArr [])).

(** *** The engine call (the second [callEngine] declaration, which is the one in effect) *)

(** What [fetch] gives: a rejection, or a response with its [ok] flag and
    its body parsed as JSON ([None] when [res.json()] rejects). *)
Inductive fetch_outcome :=
| FetchRejected
| FetchResponse (ok : bool) (json : option jsval).

Section Engine.

(** [d(x)] of the day after tomorrow at [h]:00, as [mockPlan] formats it
    from the current date. *)
Variable mock_datetime : Z -> jsstr.

Definition mock_entry (h : Z) (title location desc icon : string) : jsval :=
  JObj [("datetime", JStr (mock_datetime h)); ("title", JStr (u title));
        ("location", JStr (u location)); ("desc", JStr (u desc)); ("icon", JStr (u icon))].

Definition mock_timeline : jsval :=
  JArr [mock_entry 8%Z "사과 수확 돕기" "전북 김제시 봉남면" "농장 도우미" "🍎";
        mock_entry 12%Z "시장 투어 & 점심" "전주 남부시장" "칼국수 추천" "🍜";
        mock_entry 15%Z "내장산 산책" "정읍시" "힐링 트레일" "⛰️"].

Definition mockPlan (payload : jsval) : jsval :=
  JObj [("timeline", mock_timeline);
        ("suggestions", JArr [JStr (u "힐링 테마 여행"); JStr (u "농촌 체험"); JStr (u "사진 스팟")])].

(** [callEngine(kind, payload)] given the outcome of [loadConfig()]
    ([None] when it rejects) and of [fetch]; [None] is a rejected promise.
    Reading [cfg.endpoints[kind]] throws before the [try] when
    [cfg.endpoints] is [undefined] or [null]. *)
Definition callEngine (cfg : option jsval) (kind : string) (payload : jsval)
    (outcome : fetch_outcome) : option jsval :=
  match cfg with
  | None => None
  | Some c =>
      match get c "endpoints" with
      | JUndef | JNull => None
      | _ =>
          match outcome with
          | FetchResponse true (Some v) => Some v
          | _ => Some (mockPlan payload)
          end
      end
  end.

(** The part of [STATE] the schedule calls write. *)
Record app_state := mk_app_state {
  last_itinerary_id : jsval;
  last_schedule : jsval;
  timeline : jsval;
  calendar_st : jsval
}.

(** The tail of [createScheduleWithUser] and [sendScheduleFeedback] once
    the engine answered [data]. *)
Definition apply_schedule_response (data : jsval) (st : app_state) : app_state :=
  let sched := jor (jor (get data "data") data) (JObj []) in
  if js_truthy (get sched "itinerary_id") then
    mk_app_state (get sched "itinerary_id") sched
      (jor (jor (get (get sched "bubble_schedule") "grouped_schedule") (get sched "itinerary"))
           (JArr []))
      (jor (get (get sched "bubble_schedule") "calendar_events") (JObj []))
  else
    mk_app_state (last_itinerary_id st) sched
      (jor (get sched "timeline") (JArr []))
      (jor (get sched "calendar") (JObj [])).

(** With a user id present: [None] when the call rejects, leaving [STATE] as it was. *)
Definition createScheduleWithUser (cfg : option jsval) (body : jsval) (outcome : fetch_outcome)
    (st : app_state) : option app_state :=
  option_map (fun data => apply_schedule_response data st) (callEngine cfg "plan" body outcome).

Definition sendScheduleFeedback (cfg : option jsval) (body : jsval) (outcome : fetch_outcome)
    (st : app_state) : option app_state :=
  option_map (fun data => apply_schedule_response data st) (callEngine cfg "revise" body outcome).

End Engine.

(** *** Card checkboxes ([bindCardActions]) and the [makePlan] payload *)

(** A card of [CURRENT_RECO]: its [id], its [kind] and its other fields. *)
Record card := mk_card { c_id : jsval; c_kind : jsstr; c_fields : list (string * jsval) }.

(** A chosen card [{ ...item, kind: kind, raw: item }]: the item's fields
    with [kind] and [raw] overwritten. *)
Record chosen := mk_chosen { ch_kind : jsstr; ch_raw : card }.

Definition ch_id (c : chosen) : jsval := c_id (ch_raw c).

(** A change event of a checkbox carrying [data-id] and [data-kind]. *)
Inductive checkbox_event :=
| Checked (id kind : jsstr)
| Unchecked (id : jsstr).

Definition is_jobs (k : jsstr) : bool := bool_decide (k = u "jobs").

(** The [onchange] handler on [STATE.chosenCards], with [CURRENT_RECO.jobs]
    and [CURRENT_RECO.tours]. *)
Definition checkbox_onchange (jobs tours : list card) (chosen_cards : list chosen)
    (e : checkbox_event) : list chosen :=
  match e with
  | Checked id kind =>
      let chosen1 := if is_jobs kind
                     then List.filter (fun c => negb (is_jobs (ch_kind c))) chosen_cards
                     else chosen_cards in
      let pool := if is_jobs kind then jobs else tours in
      match List.find (fun x => strict_eq_str (c_id x) id) pool with
      | Some item =>
          if existsb (fun c => strict_eq_str (ch_id c) id) chosen1 then chosen1
          else chosen1 ++ [mk_chosen kind item]
      | None => chosen1
      end
  | Unchecked id => List.filter (fun c => negb (strict_eq_str (ch_id c) id)) chosen_cards
  end.

Definition run_events (jobs tours : list card) (chosen_cards : list chosen)
    (es : list checkbox_event) : list chosen :=
  fold_left (checkbox_onchange jobs tours) es chosen_cards.

(** [selected_farm: (STATE.chosenCards.find(c => c.kind === "jobs") || {}).raw]
    ([None] is [undefined]) and [selected_tours]. *)
Definition plan_selected_farm (chosen_cards : list chosen) : option card :=
  option_map ch_raw (List.find (fun c => is_jobs (ch_kind c)) chosen_cards).

Definition plan_selected_tours (chosen_cards : list chosen) : list card :=
  map ch_raw (List.filter (fun c => bool_decide (ch_kind c = u "tours")) chosen_cards).

(** The shape [STATE.chosenCards] keeps: distinct string ids, at most one
    farm ("jobs") card, each card taken from the pool of its kind. *)
Definition chosen_ok (jobs tours : list card) (chosen_cards : list chosen) : Prop :=
  NoDup (map ch_id chosen_cards) /\
  Forall (fun c => exists s, ch_id c = JStr s) chosen_cards /\
  length (List.filter (fun c => is_jobs (ch_kind c)) chosen_cards) <= 1 /\
  Forall (fun c => In (ch_raw c) (if is_jobs (ch_kind c) then jobs else tours)) chosen_cards.

(** *** The farm rows of a farm group in [renderScheduleTable] *)

(** [`${item.name}-${item.address}`] *)
Definition farm_key (it : Grouping.item) : string := Grouping.name it ++ "-" ++ Grouping.address it.

(** [group.items.forEach(item => { if (!seen.has(key)) { seen.add(key); uniqueItems.push(item); } })] *)
Fixpoint uniqueItems (seen : list string) (l : list Grouping.item) : list Grouping.item :=
  match l with
  | [] => []
  | x :: l' =>
      if existsb (String.eqb (farm_key x)) seen then uniqueItems seen l'
      else x :: uniqueItems (farm_key x :: seen) l'
  end.

End FrontEnd.

Module GroupingFacts.
Import Grouping.

Lemma FARM_neq_TOUR : FARM <> TOUR.
Proof. discriminate. Qed.

Lemma adjacent_separated_snoc (xs : list group) (a b : group) :
  adjacent_separated (xs ++ [a]) -> separated a b ->
  adjacent_separated (xs ++ [a; b]).
Proof.
  induction xs as [|x xs IH]; simpl; [tauto|].
  destruct xs as [|y xs]; simpl in *; [tauto|].
  intros [Hxy Hrest] Hab. split; [exact Hxy|]. exact (IH Hrest Hab).
Qed.

Lemma adjacent_separated_replace_last (xs : list group) (a a' : group) :
  adjacent_separated (xs ++ [a]) -> gtype a' = gtype a -> startDay a' = startDay a ->
  adjacent_separated (xs ++ [a']).
Proof.
  intros H Ht Hs. induction xs as [|x xs IH]; simpl in *; [exact I|].
  destruct xs as [|y xs]; simpl in *.
  - destruct H as [[H1 H2] _]. split; [|exact I].
    unfold separated. rewrite Ht, Hs. tauto.
  - destruct H as [Hxy Hrest]. split; [exact Hxy|]. exact (IH Hrest).
Qed.

Lemma concat_step (st : gstate) (x : item) :
  concat (map gitems (out (group_step st x))) = concat (map gitems (out st)) ++ [x].
Proof.
  destruct st as [gs [g|]]; unfold out; simpl; destruct (is_farm x);
    try destruct (String.eqb (gtype g) FARM);
    try destruct (String.eqb (gtype g) TOUR && Z.eqb (startDay g) (day x));
    simpl; rewrite ?map_app, ?concat_app; simpl; rewrite ?app_nil_r, ?app_assoc; reflexivity.
Qed.

Lemma group_ok_new (x : item) (t : string) :
  (t = FARM /\ is_farm x = true) \/ (t = TOUR /\ is_farm x = false) ->
  group_ok (mk_group t (day x) (day x) [x]).
Proof.
  intros Ht. unfold group_ok; simpl. split; [discriminate|]. split; [reflexivity|].
  destruct Ht as [[-> Hf]|[-> Hf]].
  - left. split; [reflexivity|]. split; [constructor; auto|].
    exists [], x. split; reflexivity.
  - right. split; [reflexivity|]. split; [reflexivity|]. constructor; auto.
Qed.

Lemma group_ok_join_farm (g : group) (x : item) :
  group_ok g -> gtype g = FARM -> is_farm x = true ->
  group_ok (mk_group (gtype g) (startDay g) (day x) (gitems g ++ [x])).
Proof.
  intros (Hne & Hfirst & Hkind) Ht Hx. unfold group_ok; simpl.
  destruct (gitems g) as [|i is] eqn:Hi; [contradiction|]. simpl.
  split; [discriminate|]. split; [exact Hfirst|].
  destruct Hkind as [(_ & Hf & _)|(Ht' & _)].
  - left. split; [exact Ht|]. split.
    + apply (proj2 (Forall_app _ (i :: is) [x])). split; [exact Hf|]. constructor; auto.
    + exists (i :: is), x. split; reflexivity.
  - exfalso. apply FARM_neq_TOUR. congruence.
Qed.

Lemma group_ok_join_tour (g : group) (x : item) :
  group_ok g -> gtype g = TOUR -> startDay g = day x -> is_farm x = false ->
  group_ok (mk_group (gtype g) (startDay g) (endDay g) (gitems g ++ [x])).
Proof.
  intros (Hne & Hfirst & Hkind) Ht Hd Hx. unfold group_ok; simpl.
  destruct (gitems g) as [|i is] eqn:Hi; [contradiction|]. simpl.
  split; [discriminate|]. split; [exact Hfirst|].
  destruct Hkind as [(Ht' & _)|(_ & He & Hf)].
  - exfalso. apply FARM_neq_TOUR. congruence.
  - right. split; [exact Ht|]. split; [exact He|].
    apply (proj2 (Forall_app _ (i :: is) [x])). split; [exact Hf|]. constructor; auto.
Qed.

Lemma inv_ok_step (st : gstate) (x : item) : inv_ok st -> inv_ok (group_step st x).
Proof.
  destruct st as [gs [g|]]; unfold inv_ok, out; simpl.
  - intros (Hok & Hadj & _). apply Forall_app in Hok. destruct Hok as [Hokgs Hokg].
    apply Forall_cons in Hokg. destruct Hokg as [Hg _].
    destruct (is_farm x) eqn:Hfx.
    + destruct (String.eqb (gtype g) FARM) eqn:Ht; simpl.
      * apply String.eqb_eq in Ht. split; [|split; [|discriminate]].
        { apply Forall_app. split; [exact Hokgs|]. constructor; [|constructor].
          exact (group_ok_join_farm g x Hg Ht Hfx). }
        { eapply adjacent_separated_replace_last; [exact Hadj|reflexivity|reflexivity]. }
      * apply String.eqb_neq in Ht. rewrite <- app_assoc. simpl.
        split; [|split; [|discriminate]].
        { apply Forall_app. split; [exact Hokgs|]. constructor; [exact Hg|].
          constructor; [|constructor]. apply group_ok_new. left. auto. }
        { apply adjacent_separated_snoc; [exact Hadj|].
          unfold separated; simpl. split; [tauto|].
          intros (_ & H2 & _). exact (FARM_neq_TOUR H2). }
    + destruct (String.eqb (gtype g) TOUR && Z.eqb (startDay g) (day x)) eqn:Hc; simpl.
      * apply andb_true_iff in Hc. destruct Hc as [Ht Hd].
        apply String.eqb_eq in Ht. apply Z.eqb_eq in Hd.
        split; [|split; [|discriminate]].
        { apply Forall_app. split; [exact Hokgs|]. constructor; [|constructor].
          exact (group_ok_join_tour g x Hg Ht Hd Hfx). }
        { eapply adjacent_separated_replace_last; [exact Hadj|reflexivity|reflexivity]. }
      * rewrite <- app_assoc. simpl. split; [|split; [|discriminate]].
        { apply Forall_app. split; [exact Hokgs|]. constructor; [exact Hg|].
          constructor; [|constructor]. apply group_ok_new. right. auto. }
        { apply adjacent_separated_snoc; [exact Hadj|].
          unfold separated; simpl. split.
          - intros (_ & H2). exact (FARM_neq_TOUR (eq_sym H2)).
          - intros (Ht & _ & Hd). apply andb_false_iff in Hc.
            destruct Hc as [Hc|Hc].
            + apply String.eqb_neq in Hc. exact (Hc Ht).
            + apply Z.eqb_neq in Hc. exact (Hc Hd). }
  - intros (_ & _ & Hn). rewrite (Hn eq_refl). simpl.
    destruct (is_farm x) eqn:Hfx; simpl; (split; [|split; [exact I|discriminate]]);
      constructor; try constructor; apply group_ok_new; auto.
Qed.

Lemma fold_group_step (xs : list item) (st : gstate) :
  inv_ok st -> inv_ok (fold_left group_step xs st) /\
  concat (map gitems (out (fold_left group_step xs st))) = concat (map gitems (out st)) ++ xs.
Proof.
  revert st. induction xs as [|x xs IH]; intros st Hst; simpl.
  - rewrite app_nil_r. auto.
  - destruct (IH (group_step st x) (inv_ok_step st x Hst)) as [H1 H2].
    split; [exact H1|]. rewrite H2, concat_step, <- app_assoc. reflexivity.
Qed.

Example group_schedule_sample :
  map (fun g => (gtype g, startDay g, endDay g, length (gitems g)))
    (group_schedule
       [mk_item 1 "d1" TOUR "벽골제" "15:00" "전북 김제시";
        mk_item 2 "d2" FARM "김제 과수농장" "08:00" "전북 김제시 금구면";
        mk_item 3 "d3" FARM "김제 과수농장" "08:00" "전북 김제시 금구면";
        mk_item 4 "d4" TOUR "a" "10:00" "x";
        mk_item 4 "d4" TOUR "b" "14:00" "y";
        mk_item 5 "d5" TOUR "c" "10:00" "z"])
  = [(TOUR, 1%Z, 1%Z, 1); (FARM, 2%Z, 3%Z, 2); (TOUR, 4%Z, 4%Z, 2); (TOUR, 5%Z, 5%Z, 1)].
Proof. reflexivity. Qed.

(** C10: the grouping pass of [renderScheduleTable] / [renderMiniTime]
    partitions the flat itinerary: the groups' items, concatenated in
    group order, are exactly the input in its order; each group is
    non-empty, a farm group holds only farm items (its [endDay] is the day
    of its last item), a tour group holds only non-farm items of its own
    [startDay]; and no two neighbouring groups are both farm groups or both
    tour groups of the same day, i.e. a farm item always joins a preceding
    farm group and a tour item joins the preceding group exactly when that
    group is a tour group of the same day. *)
Theorem group_schedule_partition (itinerary : list item) :
  concat (map gitems (group_schedule itinerary)) = itinerary /\
  Forall group_ok (group_schedule itinerary) /\
  adjacent_separated (group_schedule itinerary).
Proof.
  assert (H0 : inv_ok ([], None)) by (repeat split; constructor).
  destruct (fold_group_step itinerary ([], None) H0) as [(Hok & Hadj & _) Hc].
  unfold group_schedule.
  destruct (fold_left group_step itinerary ([], None)) as [gs cur] eqn:Hf.
  unfold out in *; simpl in *. split; [exact Hc|]. split; assumption.
Qed.

End GroupingFacts.

Module CalendarFacts.
Import Calendar.

Lemma existsb_grow (it : itin_item) (evs : list event) :
  existsb (same_entry it) evs = true ->
  existsb (same_entry it)
    (if existsb (same_entry it) evs then evs else evs ++ [new_event it]) = true.
Proof. intros H. rewrite H. exact H. Qed.

Lemma same_entry_new (it : itin_item) : same_entry it (new_event it) = true.
Proof. unfold same_entry, new_event; simpl. rewrite !bool_decide_eq_true_2; reflexivity. Qed.

Lemma existsb_after (it : itin_item) (evs : list event) :
  existsb (same_entry it)
    (if existsb (same_entry it) evs then evs else evs ++ [new_event it]) = true.
Proof.
  destruct (existsb (same_entry it) evs) eqn:E; [exact E|].
  rewrite existsb_app. simpl. rewrite same_entry_new. apply orb_true_r.
Qed.

Lemma present_update_self (cal : calendar) (it : itin_item) :
  present (update_item cal it) it.
Proof.
  intros Hel. unfold update_item. rewrite Hel.
  eexists _, _. rewrite lookup_insert_eq. split; [reflexivity|].
  rewrite lookup_insert_eq. split; [reflexivity|]. apply existsb_after.
Qed.

Lemma present_update_mono (cal : calendar) (x y : itin_item) :
  present cal x -> present (update_item cal y) x.
Proof.
  intros Hp Hel. destruct (Hp Hel) as (m & evs & Hm & Hd & He).
  unfold update_item. destruct (truthy (date y) && truthy (name y)); [|eauto].
  destruct (decide (year_month y = year_month x)) as [Eym|Nym].
  - rewrite Eym, lookup_insert_eq, Hm. simpl.
    destruct (decide (day_key y = day_key x)) as [Ed|Nd].
    + eexists _, _. split; [reflexivity|]. rewrite Ed, lookup_insert_eq, Hd. simpl.
      split; [reflexivity|].
      destruct (existsb (same_entry y) evs); [exact He|].
      rewrite existsb_app, He. reflexivity.
    + eexists _, evs. split; [reflexivity|].
      rewrite lookup_insert_ne by exact Nd. auto.
  - rewrite lookup_insert_ne by exact Nym. eauto.
Qed.

Lemma update_item_present (cal : calendar) (it : itin_item) :
  present cal it -> update_item cal it = cal.
Proof.
  intros Hp. unfold update_item.
  destruct (truthy (date it) && truthy (name it)) eqn:Hel; [|reflexivity].
  destruct (Hp Hel) as (m & evs & Hm & Hd & He). cbn zeta.
  rewrite Hm. simpl. rewrite Hd. simpl. rewrite He.
  rewrite (insert_id m (day_key it) evs Hd). exact (insert_id cal _ m Hm).
Qed.

Lemma present_fold_mono (l : list itin_item) (cal : calendar) (x : itin_item) :
  present cal x -> present (fold_left update_item l cal) x.
Proof.
  revert cal. induction l as [|y l IH]; intros cal Hp; simpl; [exact Hp|].
  apply IH. apply present_update_mono. exact Hp.
Qed.

Lemma present_fold (l : list itin_item) (cal : calendar) :
  Forall (present (fold_left update_item l cal)) l.
Proof.
  revert cal. induction l as [|x l IH]; intros cal; simpl; constructor.
  - apply present_fold_mono, present_update_self.
  - apply IH.
Qed.

Lemma fold_present_id (l : list itin_item) (cal : calendar) :
  Forall (present cal) l -> fold_left update_item l cal = cal.
Proof.
  induction 1 as [|x l Hx _ IH]; simpl; [reflexivity|].
  rewrite (update_item_present cal x Hx). exact IH.
Qed.

Lemma no_dup_push (it : itin_item) (evs : list event) :
  NoDup (map entry_key evs) ->
  NoDup (map entry_key (if existsb (same_entry it) evs then evs else evs ++ [new_event it])).
Proof.
  intros N0. destruct (existsb (same_entry it) evs) eqn:E; [exact N0|].
  rewrite map_app. simpl. apply NoDup_app. split; [exact N0|].
  split; [|apply NoDup_singleton].
  intros k Hk Hk'. apply list_elem_of_singleton in Hk'. subst k.
  apply list_elem_of_In, in_map_iff in Hk. destruct Hk as (e & Hke & He).
  assert (Hs : same_entry it e = true).
  { unfold entry_key, new_event in Hke. simpl in Hke. injection Hke as H1 H2.
    unfold same_entry. rewrite !bool_decide_eq_true_2; auto. }
  assert (Hex : existsb (same_entry it) evs = true) by (apply existsb_exists; eauto).
  congruence.
Qed.

Lemma no_dup_update_item (cal : calendar) (it : itin_item) :
  no_dup_entries cal -> no_dup_entries (update_item cal it).
Proof.
  intros Hnd ym m d evs. unfold update_item.
  destruct (truthy (date it) && truthy (name it)); [|apply Hnd].
  cbn zeta. rewrite lookup_insert.
  case_decide as Eym; [|apply Hnd].
  intros Hm. injection Hm as <-. rewrite lookup_insert. case_decide as Ed.
  - intros He. injection He as <-. subst ym d. apply no_dup_push.
    destruct (cal !! year_month it) as [m0|] eqn:Hm0; simpl.
    + destruct (m0 !! day_key it) as [evs0|] eqn:Hd0; simpl.
      * exact (Hnd _ _ _ _ Hm0 Hd0).
      * constructor.
    + constructor.
  - subst ym. destruct (cal !! year_month it) as [m0|] eqn:Hm0; simpl.
    + apply (Hnd _ _ _ _ Hm0).
    + rewrite lookup_empty. discriminate.
Qed.

Lemma no_dup_fold (l : list itin_item) (cal : calendar) :
  no_dup_entries cal -> no_dup_entries (fold_left update_item l cal).
Proof.
  revert cal. induction l as [|x l IH]; intros cal H; simpl; [exact H|].
  apply IH, no_dup_update_item, H.
Qed.

Example updateHomeCalendar_sample :
  let it1 := mk_itin_item 1 (Some (js "2025-10-01")) (Some (js "tour")) (Some (js "Byeokgolje"))
               (Some (js "15:00")) in
  let it2 := mk_itin_item 2 (Some (js "2025-10-02")) (Some (js "farm")) (Some (js "Orchard"))
               (Some (js "08:00")) in
  let once := updateHomeCalendar (Some [it1; it2; it1]) ∅ in
  (once !! js "2025-10") ≫= (fun m => m !! js "01") =
    Some [mk_event (Some (js "Byeokgolje")) (js "2025-10-01 15:00") (Some (js "tour")) 1] /\
  updateHomeCalendar (Some [it1; it2; it1]) once = once.
Proof. split; vm_compute; reflexivity. Qed.

(** C3: materialising an itinerary into the home calendar
    ([updateHomeCalendar]) is idempotent: running it a second time on the
    calendar it produced leaves that calendar equal; and it never creates a
    second event with the same (activity, type) under one day key: a
    calendar free of such duplicates stays free of them. *)
Theorem updateHomeCalendar_idempotent (itinerary : option (list itin_item)) (cal : calendar) :
  updateHomeCalendar itinerary (updateHomeCalendar itinerary cal) =
    updateHomeCalendar itinerary cal /\
  (no_dup_entries cal -> no_dup_entries (updateHomeCalendar itinerary cal)).
Proof.
  destruct itinerary as [l|]; simpl; [|split; auto].
  split.
  - apply fold_present_id, present_fold.
  - apply no_dup_fold.
Qed.

End CalendarFacts.

Module ScoringFacts.
Import Scoring.

Example parse_keywords_sample :
  parse_keywords "축제·이벤트;문화·역사;체험형" = ["축제·이벤트"; "문화·역사"; "체험형"].
Proof. reflexivity. Qed.

Example score_sample :
  score_attraction ["체험형"; "힐링·여유"] ["강·호수"]
    (mk_attraction "김제지평선축제" "강·호수" "축제·이벤트;문화·역사;체험형") = 3.
Proof. reflexivity. Qed.

Lemma insert_desc_perm {A} (key : A -> nat) (x : A) (l : list A) :
  Permutation (insert_desc key x l) (x :: l).
Proof.
  induction l as [|y l IH]; simpl; [reflexivity|].
  destruct (Nat.leb (key y) (key x)); [reflexivity|].
  rewrite IH. apply perm_swap.
Qed.

Lemma sort_desc_perm {A} (key : A -> nat) (l : list A) : Permutation (sort_desc key l) l.
Proof.
  induction l as [|x l IH]; simpl; [reflexivity|].
  rewrite insert_desc_perm, IH. reflexivity.
Qed.

Lemma map_insert_desc {A B} (f : A -> B) (key : B -> nat) (x : A) (l : list A) :
  map f (insert_desc (fun p => key (f p)) x l) = insert_desc key (f x) (map f l).
Proof.
  induction l as [|y l IH]; simpl; [reflexivity|].
  destruct (Nat.leb (key (f y)) (key (f x))); simpl; [reflexivity|]. rewrite IH. reflexivity.
Qed.

Lemma map_sort_desc {A B} (f : A -> B) (key : B -> nat) (l : list A) :
  map f (sort_desc (fun p => key (f p)) l) = sort_desc key (map f l).
Proof.
  induction l as [|x l IH]; simpl; [reflexivity|]. rewrite map_insert_desc, IH. reflexivity.
Qed.

Lemma map_snd_indexed_from {A} (s : nat) (l : list A) :
  map snd (combine (seq s (length l)) l) = l.
Proof.
  revert s. induction l as [|x l IH]; intros s; simpl; [reflexivity|]. rewrite IH. reflexivity.
Qed.

Lemma indexed_from_increasing {A} (s : nat) (l : list A) :
  StronglySorted (fun p q : nat * A => fst p < fst q) (combine (seq s (length l)) l) /\
  Forall (fun p : nat * A => s <= fst p) (combine (seq s (length l)) l).
Proof.
  revert s. induction l as [|x l IH]; intros s; simpl; [split; constructor|].
  destruct (IH (S s)) as [H1 H2]. split.
  - constructor; [exact H1|]. eapply Forall_impl; [exact H2|]. simpl. intros p Hp. lia.
  - constructor; [simpl; lia|]. eapply Forall_impl; [exact H2|]. simpl. intros p Hp. lia.
Qed.

Lemma insert_desc_sorted (x : nat * scored) (S : list (nat * scored)) :
  StronglySorted rank_before S -> Forall (fun y => fst x < fst y) S ->
  StronglySorted rank_before (insert_desc rank_key x S).
Proof.
  induction S as [|y S IH]; intros Hs Hlt; simpl.
  - repeat constructor.
  - apply StronglySorted_inv in Hs. destruct Hs as [Hs Hy].
    apply Forall_cons in Hlt. destruct Hlt as [Hxy Hlt].
    destruct (Nat.leb (rank_key y) (rank_key x)) eqn:E.
    + apply Nat.leb_le in E. constructor; [constructor; assumption|].
      constructor.
      * unfold rank_before. unfold rank_key in E. lia.
      * apply List.Forall_forall. intros z Hz.
        pose proof (proj1 (List.Forall_forall _ _) Hy z Hz) as Hyz.
        pose proof (proj1 (List.Forall_forall _ _) Hlt z Hz) as Hxz.
        unfold rank_before in *. unfold rank_key in E. lia.
    + apply Nat.leb_gt in E. constructor; [apply IH; assumption|].
      apply List.Forall_forall. intros z Hz.
      apply (Permutation_in _ (insert_desc_perm rank_key x S)) in Hz.
      destruct Hz as [<-|Hz].
      * unfold rank_before. unfold rank_key in E. lia.
      * exact (proj1 (List.Forall_forall _ _) Hy z Hz).
Qed.

Lemma sort_desc_sorted (L : list (nat * scored)) :
  StronglySorted (fun p q : nat * scored => fst p < fst q) L ->
  StronglySorted rank_before (sort_desc rank_key L).
Proof.
  induction L as [|x L IH]; intros H; simpl; [constructor|].
  apply StronglySorted_inv in H. destruct H as [H Hx].
  apply insert_desc_sorted; [exact (IH H)|].
  apply List.Forall_forall. intros z Hz.
  apply (Permutation_in _ (sort_desc_perm rank_key L)) in Hz.
  exact (proj1 (List.Forall_forall _ _) Hx z Hz).
Qed.

Lemma rank_before_asym (p q : nat * scored) : rank_before p q -> rank_before q p -> False.
Proof. unfold rank_before. lia. Qed.

Lemma sorted_perm_unique (L1 L2 : list (nat * scored)) :
  StronglySorted rank_before L1 -> StronglySorted rank_before L2 ->
  Permutation L1 L2 -> L1 = L2.
Proof.
  revert L2. induction L1 as [|a L1 IH]; intros L2 H1 H2 HP.
  - symmetry. exact (Permutation_nil HP).
  - destruct L2 as [|b L2].
    + exfalso. exact (Permutation_nil_cons (Permutation_sym HP)).
    + apply StronglySorted_inv in H1. destruct H1 as [H1 Ha].
      apply StronglySorted_inv in H2. destruct H2 as [H2 Hb].
      assert (Hab : a = b).
      { assert (In b (a :: L1)) as [E|Hb1]
          by (apply (Permutation_in _ (Permutation_sym HP)); left; reflexivity);
          [exact E|].
        assert (In a (b :: L2)) as [E|Ha2]
          by (apply (Permutation_in _ HP); left; reflexivity); [symmetry; exact E|].
        exfalso.
        exact (rank_before_asym a b (proj1 (List.Forall_forall _ _) Ha b Hb1)
                                     (proj1 (List.Forall_forall _ _) Hb a Ha2)). }
      subst b. f_equal. apply IH; [exact H1|exact H2|].
      exact (Permutation_cons_inv HP).
Qed.

(** C7: [score_and_rank_attractions] orders its result by score,
    highest first, ties kept in input order: with the input positions
    attached, the ranked list is a permutation of the scored input that is
    strictly sorted by (score descending, position ascending), and it is the
    only such list, so equal inputs always give the same sequence. *)
Theorem score_and_rank_total_order (attractions : list attraction)
    (user_travel_styles user_landscapes : list string) :
  let scored_list := map (fun a => (a, score_attraction user_travel_styles user_landscapes a))
                         attractions in
  let ranked := sort_desc rank_key (indexed scored_list) in
  score_and_rank_attractions attractions user_travel_styles user_landscapes = map snd ranked /\
  Permutation ranked (indexed scored_list) /\
  StronglySorted rank_before ranked /\
  (forall L, Permutation L (indexed scored_list) -> StronglySorted rank_before L -> L = ranked).
Proof.
  intros scored_list ranked.
  assert (Hsorted : StronglySorted rank_before ranked).
  { apply sort_desc_sorted. apply (indexed_from_increasing 0 scored_list). }
  assert (Hperm : Permutation ranked (indexed scored_list)) by apply sort_desc_perm.
  split; [|split; [exact Hperm|split; [exact Hsorted|]]].
  - subst ranked scored_list. unfold rank_key, score_and_rank_attractions.
    rewrite (map_sort_desc (A := nat * scored) (B := scored) snd (snd : scored -> nat)). unfold indexed. rewrite map_snd_indexed_from. reflexivity.
  - intros L HL HS. apply sorted_perm_unique; [exact HS|exact Hsorted|].
    rewrite HL, Hperm. reflexivity.
Qed.

(** C6 (as stated, fails): a candidate whose travel-style column lists the
    user's style twice scores 2, while "2 x the number of its matching
    travel-style tags" would be 4. *)
Lemma score_counts_user_styles_counterexample :
  let a := mk_attraction "전주한옥마을" "" "체험형;체험형" in
  score_and_rank_attractions [a] ["체험형"] [] = [(a, 2)] /\
  spec_score ["체험형"] [] a = 4.
Proof. split; reflexivity. Qed.

Lemma score_attraction_user_side (styles lands : list string) (a : attraction) :
  score_attraction styles lands a = user_side_score styles lands a.
Proof.
  unfold score_attraction, user_side_score. destruct lands as [|l lands]; simpl; [lia|].
  match goal with |- context [if ?c then _ else _] => destruct c end; lia.
Qed.

(** C6 (amended): every entry of the ranking carries the score
    2 x (number of the user's travel styles matched by at least one of the
    candidate's travel-style tags) + (1 if some user landscape matches a
    candidate landscape tag, else 0), and the ranking lists exactly the
    input candidates. *)
Theorem score_and_rank_scores (attractions : list attraction)
    (user_travel_styles user_landscapes : list string) :
  Permutation (map fst (score_and_rank_attractions attractions user_travel_styles user_landscapes))
              attractions /\
  Forall (fun p => snd p = user_side_score user_travel_styles user_landscapes (fst p))
    (score_and_rank_attractions attractions user_travel_styles user_landscapes).
Proof.
  unfold score_and_rank_attractions.
  pose proof (sort_desc_perm snd
    (map (fun a => (a, score_attraction user_travel_styles user_landscapes a)) attractions)) as HP.
  split.
  - rewrite HP, map_map. simpl. rewrite map_id. reflexivity.
  - apply List.Forall_forall. intros p Hp.
    apply (Permutation_in _ HP) in Hp. apply in_map_iff in Hp.
    destruct Hp as (a & <- & _). simpl. apply score_attraction_user_side.
Qed.

End ScoringFacts.

Module DurationFacts.
Import Duration.

Example extract_duration_samples :
  extract_duration "10월에 열흘간 김제에서 과수원 체험하고 싶어" = Some 10 /\
  extract_duration "3박4일 전주 여행" = Some 4 /\
  extract_duration "이틀 동안 사과따기" = Some 2 /\
  extract_duration "20일 동안 머물래요" = Some 10 /\
  extract_duration "김제에서 사과따기 하고 싶어요" = None.
Proof. repeat split; vm_compute; reflexivity. Qed.

Lemma scan_some (recognise : string -> option nat) (s : string) (v : nat) :
  scan recognise s = Some v -> exists t, recognise t = Some v.
Proof.
  induction s as [|c rest IH]; simpl; [discriminate|].
  destruct (recognise (String c rest)) eqn:E.
  - intros H. injection H as <-. eauto.
  - exact IH.
Qed.

Lemma word_at_numeral_range (s : string) (v : nat) :
  word_at numeral_words s = Some v -> 1 <= v <= 10.
Proof.
  unfold numeral_words. simpl.
  repeat match goal with
         | |- (if ?c then _ else _) = _ -> _ => destruct c
         end;
  intros H; try discriminate H; injection H as <-; lia.
Qed.

Lemma digits_day_at_pos (s : string) (v : nat) : digits_day_at s = Some v -> 1 <= v.
Proof.
  unfold digits_day_at. destruct s as [|c rest]; [discriminate|].
  destruct (is_digit c); [|discriminate].
  destruct (take_number (String c rest) 0) as [n r].
  destruct (String.prefix "일" r && Nat.leb 1 n) eqn:E; [|discriminate].
  intros H. injection H as <-. apply andb_true_iff in E. apply Nat.leb_le. tauto.
Qed.

Lemma find_duration_pos (text : string) (v : nat) : find_duration text = Some v -> 1 <= v.
Proof.
  intros H. destruct (scan_some _ _ _ H) as [t Ht]. unfold duration_at in Ht.
  destruct (word_at numeral_words t) eqn:E.
  - injection Ht as <-. apply (word_at_numeral_range t). exact E.
  - exact (digits_day_at_pos t v Ht).
Qed.

Lemma extract_duration_range (text : string) (v : nat) :
  extract_duration text = Some v -> 1 <= v <= 10.
Proof.
  unfold extract_duration. destruct (find_duration text) as [w|] eqn:E; [|discriminate].
  intros H. injection H as <-. pose proof (find_duration_pos text w E). lia.
Qed.

(** C8: [extract_duration] signals absence (None, not 0) when the text has
    no duration phrase, returns the table value for a spelled-out numeral
    ("열흘" gives 10), clamps a found value above 10 to 10, and so always
    returns None or a value in 1..10. *)
Theorem extract_duration_contract (text : string) :
  (find_duration text = None -> extract_duration text = None) /\
  (forall v, find_duration text = Some v -> v <= 10 -> extract_duration text = Some v) /\
  (forall v, find_duration text = Some v -> 10 < v -> extract_duration text = Some 10) /\
  extract_duration "열흘" = Some 10 /\
  (extract_duration text = None \/ exists n, extract_duration text = Some n /\ 1 <= n <= 10).
Proof.
  unfold extract_duration. split; [intros ->; reflexivity|].
  split; [intros v -> Hv; f_equal; lia|].
  split; [intros v -> Hv; f_equal; lia|].
  split; [vm_compute; reflexivity|].
  destruct (find_duration text) as [v|] eqn:E; [right|left; reflexivity].
  exists (Nat.min v 10). split; [reflexivity|]. pose proof (find_duration_pos text v E). lia.
Qed.

End DurationFacts.

Module SchedulerFacts.
Import Scheduler.

#[local] Set Default Proof Using "Type".

Section Facts.

Variable date_of_day : string -> nat -> string.
Variable locality : string -> string.
Variable resolve_start : string -> string -> string -> string * option tour_selection.
Variable reserved_tour_days : nat -> nat -> nat.

Lemma place_day_in (start : string) (days : list nat) (tc : list tour_selection)
    (i : schedule_item) :
  In i (place date_of_day start days tc) -> In (day i) days.
Proof.
  revert tc. induction days as [|k days IH]; intros tc; simpl; [intros []|].
  destruct days as [|k' days'].
  - destruct tc as [|t tc]; simpl.
    + intros [<-|[]]. left. reflexivity.
    + intros [<-|Hin]; [left; reflexivity|].
      apply in_map_iff in Hin. destruct Hin as (t' & <- & _). left. reflexivity.
  - destruct tc as [|t tc]; simpl.
    + intros [<-|Hin]; [left; reflexivity|]. right. exact (IH [] Hin).
    + intros [<-|Hin]; [left; reflexivity|]. right. exact (IH tc Hin).
Qed.

Lemma place_covers (start : string) (days : list nat) (tc : list tour_selection) (k : nat) :
  In k days -> exists i, In i (place date_of_day start days tc) /\ day i = k.
Proof.
  revert tc. induction days as [|k0 days IH]; intros tc; simpl; [intros []|].
  intros Hk. destruct days as [|k' days'].
  - destruct Hk as [<-|[]]. destruct tc as [|t tc]; simpl.
    + eexists. split; [left; reflexivity|reflexivity].
    + eexists. split; [left; reflexivity|reflexivity].
  - destruct Hk as [<-|Hk].
    + destruct tc as [|t tc]; simpl; (eexists; split; [left; reflexivity|reflexivity]).
    + destruct tc as [|t tc].
      * destruct (IH [] Hk) as (i & Hi & Hd). exists i. split; [right; exact Hi|exact Hd].
      * destruct (IH tc Hk) as (i & Hi & Hd). exists i. split; [right; exact Hi|exact Hd].
Qed.

Lemma schedule_items_in (f : farm_selection) (tc : list tour_selection) (d : nat)
    (start : string) (i : schedule_item) :
  In i (schedule_items date_of_day reserved_tour_days f tc d start) <->
  In i (place date_of_day start (non_farm_days reserved_tour_days (length tc) d) tc) \/
  In i (map (farm_item date_of_day start f)
            (seq (farm_start (length tc)) (farm_size reserved_tour_days (length tc) d))).
Proof.
  unfold schedule_items. rewrite !in_app_iff, !filter_In.
  split.
  - intros [[H _]|[H|[H _]]]; auto.
  - intros [H|H]; [|auto].
    destruct (Nat.ltb (day i) (farm_start (length tc))) eqn:E.
    + left. auto.
    + right. right. split; [exact H|]. apply Nat.ltb_ge in E. apply Nat.leb_le. exact E.
Qed.

Hypothesis arrival_day_reserved : forall n d, 0 < n -> 1 <= reserved_tour_days n d.

Lemma farm_size_le (n d : nat) : 0 < n -> farm_size reserved_tour_days n d <= d - 1.
Proof using arrival_day_reserved.
  intros Hn. unfold farm_size. destruct (Nat.eqb_spec n 0) as [->|_]; [lia|].
  pose proof (arrival_day_reserved n d Hn). lia.
Qed.

Lemma day_range (n d k : nat) :
  1 <= d ->
  (In k (non_farm_days reserved_tour_days n d) \/
   In k (seq (farm_start n) (farm_size reserved_tour_days n d))) <-> 1 <= k <= d.
Proof using arrival_day_reserved.
  intros Hd. unfold non_farm_days, farm_start.
  destruct (Nat.eqb_spec n 0) as [->|Hn].
  - unfold farm_size. simpl. rewrite in_seq. lia.
  - assert (Hfs := farm_size_le n d ltac:(lia)).
    simpl. rewrite !in_seq. lia.
Qed.

Lemma schedule_items_days (f : farm_selection) (tc : list tour_selection) (d : nat)
    (start : string) :
  1 <= d ->
  (forall i, In i (schedule_items date_of_day reserved_tour_days f tc d start) -> 1 <= day i <= d) /\
  (forall k, 1 <= k <= d ->
     exists i, In i (schedule_items date_of_day reserved_tour_days f tc d start) /\ day i = k).
Proof using arrival_day_reserved.
  intros Hd. split.
  - intros i Hi. apply schedule_items_in in Hi. apply (day_range (length tc) d (day i) Hd).
    destruct Hi as [Hi|Hi].
    + left. exact (place_day_in _ _ _ _ Hi).
    + right. apply in_map_iff in Hi. destruct Hi as (k & <- & Hk). exact Hk.
  - intros k Hk. apply (day_range (length tc) d k Hd) in Hk. destruct Hk as [Hk|Hk].
    + destruct (place_covers start _ tc k Hk) as (i & Hi & Hdi).
      exists i. split; [apply schedule_items_in; left; exact Hi|exact Hdi].
    + exists (farm_item date_of_day start f k). split; [|reflexivity].
      apply schedule_items_in. right. apply in_map_iff. eauto.
Qed.

Lemma generate_schedule_inv (farm : option farm_selection) (tours : list tour_selection)
    (text region_name today id : string) (it : itinerary) :
  generate_schedule date_of_day locality resolve_start reserved_tour_days
    farm tours text region_name today id = inr it ->
  exists f start special d,
    farm = Some f /\ 1 <= d <= 10 /\
    it = mk_itinerary id d
           (schedule_items date_of_day reserved_tour_days f
              (tour_content locality tours special) d start)
           (mk_summary (farm_size reserved_tour_days (length (tour_content locality tours special)) d)
              (d - farm_size reserved_tour_days (length (tour_content locality tours special)) d)
              region_name).
Proof.
  unfold generate_schedule.
  destruct (resolve_start text region_name today) as [start special].
  destruct farm as [f|]; simpl; [|discriminate].
  intros H. injection H as <-. exists f, start, special. eexists. split; [reflexivity|].
  split; [|reflexivity].
  destruct (Duration.extract_duration text) as [n|] eqn:E; [|lia].
  exact (DurationFacts.extract_duration_range text n E).
Qed.

(** C1: every itinerary produced by [generate_schedule] has 1 to 10 days,
    every item lies on a day of 1..total_days and every such day carries
    at least one item (so the day indices are exactly {1..total_days}),
    for any policy that reserves at least the arrival day when tours exist. *)
Theorem generate_schedule_days (farm : option farm_selection) (tours : list tour_selection)
    (text region_name today id : string) (it : itinerary) :
  generate_schedule date_of_day locality resolve_start reserved_tour_days
    farm tours text region_name today id = inr it ->
  1 <= total_days it <= 10 /\
  (forall i, In i (items it) -> 1 <= day i <= total_days it) /\
  (forall k, 1 <= k <= total_days it -> exists i, In i (items it) /\ day i = k).
Proof using arrival_day_reserved.
  intros H. destruct (generate_schedule_inv farm tours text region_name today id it H)
    as (f & start & special & d & _ & Hd & ->). simpl.
  split; [exact Hd|]. apply schedule_items_days. lia.
Qed.

(** The tour entries and free markers are tour items. *)
Lemma place_not_farm (start : string) (days : list nat) (tc : list tour_selection)
    (i : schedule_item) :
  In i (place date_of_day start days tc) -> is_farm_item i = false.
Proof.
  revert tc. induction days as [|k days IH]; intros tc; simpl; [intros []|].
  destruct days as [|k' days'].
  - destruct tc as [|t tc]; simpl.
    + intros [<-|[]]. reflexivity.
    + intros [<-|Hin]; [reflexivity|].
      apply in_map_iff in Hin. destruct Hin as (t' & <- & _). reflexivity.
  - destruct tc as [|t tc]; simpl.
    + intros [<-|Hin]; [reflexivity|]. exact (IH [] Hin).
    + intros [<-|Hin]; [reflexivity|]. exact (IH tc Hin).
Qed.

Lemma schedule_items_farm (f : farm_selection) (tc : list tour_selection) (d : nat)
    (start : string) (i : schedule_item) :
  In i (schedule_items date_of_day reserved_tour_days f tc d start) -> is_farm_item i = true ->
  exists k, In k (seq (farm_start (length tc)) (farm_size reserved_tour_days (length tc) d)) /\
            i = farm_item date_of_day start f k.
Proof.
  intros Hi Hf. apply schedule_items_in in Hi. destruct Hi as [Hi|Hi].
  - rewrite (place_not_farm _ _ _ _ Hi) in Hf. discriminate.
  - apply in_map_iff in Hi. destruct Hi as (k & <- & Hk). eauto.
Qed.

(** The farm items of an itinerary built by [build] share the farm's name
    and address, and their day indices form one contiguous range whose
    length is the summary's farm-day count ([duration - reserved] when
    tour content exists); the range covers the whole trip when there are
    neither tours nor a special event. *)
Lemma build_farm_block (farm : option farm_selection) (tours : list tour_selection)
    (duration : nat) (start : string) (special : option tour_selection)
    (region_name id : string) (it : itinerary) :
  build date_of_day locality reserved_tour_days farm tours duration start special region_name id
    = inr it ->
  (forall i j, In i (items it) -> In j (items it) ->
     is_farm_item i = true -> is_farm_item j = true ->
     name i = name j /\ address i = address j) /\
  (exists a, forall k,
     (exists i, In i (items it) /\ is_farm_item i = true /\ day i = k) <->
     a <= k < a + farm_days_count (summary_of it)) /\
  (tours = [] -> special = None -> farm_days_count (summary_of it) = duration).
Proof.
  unfold build. destruct farm as [f|]; [|discriminate]. intros H. injection H as <-. simpl.
  split; [|split].
  - intros i j Hi Hj Fi Fj.
    destruct (schedule_items_farm _ _ _ _ _ Hi Fi) as (k & _ & ->).
    destruct (schedule_items_farm _ _ _ _ _ Hj Fj) as (k' & _ & ->).
    split; reflexivity.
  - exists (farm_start (length (tour_content locality tours special))). intros k. split.
    + intros (i & Hi & Fi & <-). destruct (schedule_items_farm _ _ _ _ _ Hi Fi) as (k & Hk & ->).
      apply in_seq in Hk. exact Hk.
    + intros Hk. exists (farm_item date_of_day start f k). split; [|split; reflexivity].
      apply schedule_items_in. right. apply in_map_iff. exists k. split; [reflexivity|].
      apply in_seq. exact Hk.
  - intros -> ->. reflexivity.
Qed.

(** C9: without a farm selection [build] and [generate_schedule] refuse with
    [NoFarmSelectedError]; with one farm selection and any list of tours
    they produce an itinerary. *)
Theorem build_requires_farm (tours : list tour_selection) (duration : nat) (start : string)
    (special : option tour_selection) (text region_name today id : string) :
  build date_of_day locality reserved_tour_days None tours duration start special region_name id
    = inl NoFarmSelectedError /\
  generate_schedule date_of_day locality resolve_start reserved_tour_days
    None tours text region_name today id = inl NoFarmSelectedError /\
  (forall farm,
     (exists it, build date_of_day locality reserved_tour_days
                   farm tours duration start special region_name id = inr it) <->
     exists f, farm = Some f) /\
  (forall farm,
     (exists it, generate_schedule date_of_day locality resolve_start reserved_tour_days
                   farm tours text region_name today id = inr it) <->
     exists f, farm = Some f).
Proof.
  split; [reflexivity|]. split.
  - unfold generate_schedule. destruct (resolve_start text region_name today). reflexivity.
  - split; intros farm; split.
    + intros (it & H). destruct farm as [f|]; [eauto|discriminate].
    + intros (f & ->). eexists. reflexivity.
    + unfold generate_schedule. destruct (resolve_start text region_name today).
      intros (it & H). destruct farm as [f|]; [eauto|discriminate].
    + intros (f & ->). unfold generate_schedule. destruct (resolve_start text region_name today).
      eexists. reflexivity.
Qed.

(** Replacing the items of day [d] leaves every other item in place. *)
Lemma replace_day_other (d : nat) (x : schedule_item) (b : bool) (l : list schedule_item) :
  day x = d ->
  List.filter (fun i => negb (Nat.eqb (day i) d)) (replace_day d x b l) =
  List.filter (fun i => negb (Nat.eqb (day i) d)) l.
Proof.
  intros Hx. revert b. induction l as [|a l IH]; intros b; simpl; [reflexivity|].
  destruct (Nat.eqb (day a) d) eqn:E; simpl.
  - destruct b; simpl; [apply IH|]. rewrite Hx, Nat.eqb_refl. simpl. apply IH.
  - rewrite E. simpl. f_equal. apply IH.
Qed.

Lemma replace_day_same (d : nat) (x : schedule_item) (b : bool) (l : list schedule_item) :
  day x = d ->
  List.filter (fun i => Nat.eqb (day i) d) (replace_day d x b l) =
  if b then [] else if existsb (fun i => Nat.eqb (day i) d) l then [x] else [].
Proof.
  intros Hx. revert b. induction l as [|a l IH]; intros b; simpl; [destruct b; reflexivity|].
  destruct (Nat.eqb (day a) d) eqn:E; simpl.
  - destruct b; simpl; [apply IH|]. rewrite Hx, Nat.eqb_refl. rewrite IH. reflexivity.
  - rewrite E. apply IH.
Qed.

Lemma replace_day_farm (d : nat) (x : schedule_item) (b : bool) (l : list schedule_item) :
  is_farm_item x = false ->
  (forall i, In i l -> day i = d -> is_farm_item i = false) ->
  List.filter is_farm_item (replace_day d x b l) = List.filter is_farm_item l.
Proof.
  intros Hx. revert b. induction l as [|a l IH]; intros b Hl; simpl; [reflexivity|].
  assert (Hl' : forall i, In i l -> day i = d -> is_farm_item i = false)
    by (intros i Hi; apply Hl; right; exact Hi).
  destruct (Nat.eqb_spec (day a) d) as [Ha|Ha].
  - rewrite (Hl a (or_introl eq_refl) Ha).
    destruct b; simpl; [apply IH; exact Hl'|]. rewrite Hx. apply IH. exact Hl'.
  - simpl. destruct (is_farm_item a); [f_equal|]; apply IH; exact Hl'.
Qed.

Lemma filter_day_in (d : nat) (l : list schedule_item) (i : schedule_item) :
  In i (List.filter (fun i => Nat.eqb (day i) d) l) <-> In i l /\ day i = d.
Proof. rewrite filter_In. rewrite Nat.eqb_eq. tauto. Qed.

(** C4: a revision that targets day [d] changes nothing outside day [d]:
    the items of the other days (the farm block among them) are the same
    list, the items of day [d] are kept or replaced by one tour item, the
    id and the number of days are kept and only the summary is recomputed. *)
Theorem revise_schedule_frame (cands : list candidate) (styles landscapes : list string)
    (it : itinerary) (feedback : string) (d : nat) (it' : itinerary) :
  parse_day_ref feedback = Some d ->
  revise_schedule locality cands styles landscapes it feedback = inr it' ->
  List.filter (fun i => negb (Nat.eqb (day i) d)) (items it') =
    List.filter (fun i => negb (Nat.eqb (day i) d)) (items it) /\
  List.filter is_farm_item (items it') = List.filter is_farm_item (items it) /\
  (List.filter (fun i => Nat.eqb (day i) d) (items it') =
     List.filter (fun i => Nat.eqb (day i) d) (items it) \/
   exists x, List.filter (fun i => Nat.eqb (day i) d) (items it') = [x] /\
             is_farm_item x = false) /\
  itinerary_id it' = itinerary_id it /\
  total_days it' = total_days it /\
  summary_of it' =
    mk_summary (length (List.filter is_farm_item (items it')))
      (total_days it - length (List.filter is_farm_item (items it')))
      (region (summary_of it)).
Proof.
  intros Hp. unfold revise_schedule. rewrite Hp.
  destruct (List.filter (fun i => Nat.eqb (day i) d) (items it)) as [|slot rest] eqn:Ef;
    [intros H; discriminate H|].
  destruct (existsb is_farm_item (slot :: rest)) eqn:Eb; [intros H; discriminate H|].
  assert (Hslot : day slot = d).
  { apply (proj2 (proj1 (filter_day_in d (items it) slot) ltac:(rewrite Ef; left; reflexivity))). }
  assert (Hnf : forall i, In i (items it) -> day i = d -> is_farm_item i = false).
  { intros i Hi Hd. apply Bool.not_true_iff_false. intros Hfi.
    assert (Hin : In i (slot :: rest)) by (rewrite <- Ef; apply filter_day_in; split; assumption).
    assert (existsb is_farm_item (slot :: rest) = true)
      by (apply existsb_exists; exists i; split; assumption).
    congruence. }
  destruct (alternatives locality cands styles landscapes it slot) as [|c cs].
  - intros H. injection H as <-. simpl. rewrite Ef.
    repeat split; [left; reflexivity].
  - intros H. injection H as <-. simpl.
    assert (Hx : day (replacement slot c) = d) by exact Hslot.
    split; [apply replace_day_other; exact Hx|].
    split; [apply replace_day_farm; [reflexivity|exact Hnf]|].
    split; [|repeat split].
    right. exists (replacement slot c). split; [|reflexivity].
    rewrite replace_day_same by exact Hx.
    assert (existsb (fun i => Nat.eqb (day i) d) (items it) = true) as ->.
    { apply existsb_exists. exists slot. split; [|rewrite Hslot; apply Nat.eqb_refl].
      apply (proj1 (proj1 (filter_day_in d (items it) slot) ltac:(rewrite Ef; left; reflexivity))). }
    reflexivity.
Qed.

(** C5: [revise_schedule] fails only with [FeedbackTargetInvalidError], and
    it fails exactly when the feedback names a day with no item or a day
    carrying a farm item; being a function of its inputs it returns the
    error without a revised itinerary. *)
Theorem revise_schedule_failure (cands : list candidate) (styles landscapes : list string)
    (it : itinerary) (feedback : string) :
  (forall e, revise_schedule locality cands styles landscapes it feedback = inl e ->
             e = FeedbackTargetInvalidError) /\
  ((exists e, revise_schedule locality cands styles landscapes it feedback = inl e) <->
   exists d, parse_day_ref feedback = Some d /\
             ((forall i, In i (items it) -> day i <> d) \/
              exists i, In i (items it) /\ day i = d /\ is_farm_item i = true)).
Proof.
  unfold revise_schedule.
  destruct (parse_day_ref feedback) as [d|] eqn:Hp.
  2:{ split; [discriminate|]. split; [intros (e & H); discriminate|].
      intros (d & H & _). discriminate. }
  destruct (List.filter (fun i => Nat.eqb (day i) d) (items it)) as [|slot rest] eqn:Ef.
  - split; [intros e H; injection H as <-; reflexivity|].
    split; [intros _|intros _; eexists; reflexivity].
    exists d. split; [reflexivity|]. left. intros i Hi Hd.
    assert (Hin : In i (List.filter (fun i => Nat.eqb (day i) d) (items it)))
      by (apply filter_day_in; split; assumption).
    rewrite Ef in Hin. exact Hin.
  - destruct (existsb is_farm_item (slot :: rest)) eqn:Eb.
    + split; [intros e H; injection H as <-; reflexivity|].
      split; [intros _|intros _; eexists; reflexivity].
      exists d. split; [reflexivity|]. right.
      apply existsb_exists in Eb. destruct Eb as (i & Hi & Fi). rewrite <- Ef in Hi.
      apply filter_day_in in Hi. exists i. destruct Hi as [Hi Hd]. repeat split; assumption.
    + assert (Hno : (exists d', Some d = Some d' /\
          ((forall i, In i (items it) -> day i <> d') \/
           exists i, In i (items it) /\ day i = d' /\ is_farm_item i = true)) -> False).
      { intros (d' & Hd' & Hc). injection Hd' as <-. destruct Hc as [Hc|(i & Hi & Hd & Fi)].
        - assert (Hin : In slot (List.filter (fun i => Nat.eqb (day i) d) (items it)))
            by (rewrite Ef; left; reflexivity).
          apply filter_day_in in Hin. exact (Hc slot (proj1 Hin) (proj2 Hin)).
        - assert (Hin : In i (slot :: rest)) by (rewrite <- Ef; apply filter_day_in; split; assumption).
          assert (existsb is_farm_item (slot :: rest) = true)
            by (apply existsb_exists; exists i; split; assumption).
          congruence. }
      destruct (alternatives locality cands styles landscapes it slot) as [|c cs];
        (split; [intros e H; discriminate H|];
         split; [intros (e & H); discriminate H|intros Hc; exfalso; exact (Hno Hc)]).
Qed.

End Facts.

Import SampleConfig.

Lemma generate_schedule_days_witness :
  exists it,
    sample_generate (Some sample_farm) [byeokgolje]
      "10월에 열흘간 김제에서 과수원 체험하고 싶어" "김제시" "2026-10-14" "it-1" = inr it /\
    (1 <= total_days it <= 10 /\
     (forall i, In i (items it) -> 1 <= day i <= total_days it) /\
     (forall k, 1 <= k <= total_days it -> exists i, In i (items it) /\ day i = k)).
Proof.
  eexists. split; [reflexivity|].
  refine (generate_schedule_days sample_date sample_locality sample_resolve sample_reserved _
            (Some sample_farm) [byeokgolje] "10월에 열흘간 김제에서 과수원 체험하고 싶어"
            "김제시" "2026-10-14" "it-1" _ _).
  - intros n d Hn. unfold sample_reserved. destruct (Nat.eqb_spec n 0); lia.
  - vm_compute. reflexivity.
Defined.

(** C2: a one-day request (no duration phrase, so the default of 1 day)
    with a farm and one tour succeeds with an itinerary that has no farm
    item at all, against the guaranteed single farm block: the farm block
    size [duration - reserved tour days] is 0 because the arrival day
    reserved for the tour takes the only day. *)
Lemma one_day_trip_has_no_farm_block :
  exists it,
    sample_generate (Some sample_farm) [byeokgolje]
      "사과따기 하고 싶어요" "김제시" "2026-10-14" "it-2" = inr it /\
    total_days it = 1 /\
    List.filter is_farm_item (items it) = [] /\
    farm_days_count (summary_of it) = 0.
Proof. eexists. split; [reflexivity|]. vm_compute. repeat split. Qed.

Lemma revise_schedule_frame_witness :
  exists it it',
    sample_generate (Some sample_farm) [byeokgolje]
      "10월에 열흘간 김제에서 과수원 체험하고 싶어" "김제시" "2026-10-14" "it-1" = inr it /\
    revise_schedule sample_locality [geumsansa] ["힐링"] ["산"] it
      "첫째날 일정을 바꿔주세요" = inr it' /\
    (List.filter (fun i => negb (Nat.eqb (day i) 1)) (items it') =
       List.filter (fun i => negb (Nat.eqb (day i) 1)) (items it) /\
     List.filter is_farm_item (items it') = List.filter is_farm_item (items it) /\
     (List.filter (fun i => Nat.eqb (day i) 1) (items it') =
        List.filter (fun i => Nat.eqb (day i) 1) (items it) \/
      exists x, List.filter (fun i => Nat.eqb (day i) 1) (items it') = [x] /\
                is_farm_item x = false) /\
     itinerary_id it' = itinerary_id it /\
     total_days it' = total_days it /\
     summary_of it' =
       mk_summary (length (List.filter is_farm_item (items it')))
         (total_days it - length (List.filter is_farm_item (items it')))
         (region (summary_of it))).
Proof.
  eexists. eexists. split; [reflexivity|]. split; [reflexivity|].
  apply (revise_schedule_frame sample_locality [geumsansa] ["힐링"] ["산"] _
           "첫째날 일정을 바꿔주세요" 1).
  - vm_compute. reflexivity.
  - vm_compute. reflexivity.
Defined.

End SchedulerFacts.

Module FrontEndFacts.
Import Calendar JS FrontEnd.

(** *** Timeline upserts *)

Section UpsertFacts.
Variable A : Type.
Variable datetime : A -> option jsstr.

Lemma upsert_item_cell (cal : gmap jsstr (gmap jsstr (list A))) (x : A) (ym k : jsstr) :
  cell_events (upsert_item A datetime cal x) ym k =
  cell_events cal ym k ++
  (if bool_decide (item_key A datetime x = k /\ k <> [] /\ slice k 0 7 = ym) then [x] else []).
Proof.
  unfold upsert_item, cell_events.
  destruct (item_key A datetime x) as [|c cs] eqn:E.
  - rewrite bool_decide_false by (intros (<- & Hk & _); congruence). rewrite app_nil_r. reflexivity.
  - destruct (decide (ym = slice (c :: cs) 0 7)) as [Hym|Hym].
    + subst ym. rewrite lookup_insert_eq. simpl.
      destruct (decide (k = c :: cs)) as [->|Hk].
      * rewrite lookup_insert_eq. simpl. rewrite bool_decide_true by (split; [reflexivity|split; [discriminate|reflexivity]]).
        destruct (cal !! slice (c :: cs) 0 7) as [m|]; simpl; [|reflexivity].
        reflexivity.
      * rewrite lookup_insert_ne by congruence.
        rewrite bool_decide_false by (intros (H & _); congruence). rewrite app_nil_r.
        destruct (cal !! slice (c :: cs) 0 7) as [m|]; simpl; [reflexivity|].
        rewrite lookup_empty. reflexivity.
    + rewrite lookup_insert_ne by congruence.
      rewrite bool_decide_false by (intros (H1 & _ & H2); subst; congruence).
      rewrite app_nil_r. reflexivity.
Qed.

Lemma upsert_cell_events_gen (tl : list A) (cal : gmap jsstr (gmap jsstr (list A))) (ym k : jsstr) :
  cell_events (upsertCalendarEvents A datetime (Some tl) cal) ym k =
  cell_events cal ym k ++
  List.filter (fun x => bool_decide (item_key A datetime x = k /\ k <> [] /\ slice k 0 7 = ym)) tl.
Proof.
  unfold upsertCalendarEvents. simpl. revert cal.
  induction tl as [|x tl IH]; intros cal; simpl; [rewrite app_nil_r; reflexivity|].
  rewrite IH, upsert_item_cell, <- app_assoc.
  destruct (bool_decide _); reflexivity.
Qed.

End UpsertFacts.

Lemma cell_has_bind {V} (cal : gmap jsstr (gmap jsstr V)) (ym k : jsstr) :
  cell_has cal ym k = bool_decide (is_Some (cal !! ym ≫= fun m => m !! k)).
Proof. unfold cell_has. destruct (cal !! ym); simpl; reflexivity. Qed.

Lemma day_key_length (it : itin_item) : length (day_key it) <= 2.
Proof. unfold day_key, slice. simpl. rewrite length_firstn. lia. Qed.

Lemma update_item_long_key (cal : calendar) (it : itin_item) (ym k : jsstr) :
  2 < length k ->
  (update_item cal it !! ym ≫= fun m => m !! k) = (cal !! ym ≫= fun m => m !! k).
Proof.
  intros Hk. unfold update_item.
  destruct (truthy (date it) && truthy (name it)); [|reflexivity].
  destruct (decide (ym = year_month it)) as [->|Hym].
  - rewrite lookup_insert_eq. simpl.
    assert (Hd : day_key it <> k) by (intros <-; pose proof (day_key_length it); lia).
    rewrite lookup_insert_ne by exact Hd.
    destruct (cal !! year_month it); simpl; [reflexivity|]. apply lookup_empty.
  - rewrite lookup_insert_ne by congruence. reflexivity.
Qed.

Lemma updateHomeCalendar_long_key (itin : option (list itin_item)) (cal : calendar) (ym k : jsstr) :
  2 < length k ->
  (updateHomeCalendar itin cal !! ym ≫= fun m => m !! k) = (cal !! ym ≫= fun m => m !! k).
Proof.
  intros Hk. destruct itin as [l|]; simpl; [|reflexivity]. revert cal.
  induction l as [|it l IH]; intros cal; simpl; [reflexivity|].
  rewrite IH. apply update_item_long_key. exact Hk.
Qed.

Lemma split_spaces_cell_class (inMonth has : bool) :
  class_tokens (cell_class inMonth has) =
  u "cal-cell" :: (if inMonth then [] else [u "muted"]) ++ (if has then [u "has"] else []).
Proof. destruct inMonth, has; vm_compute; reflexivity. Qed.

(** X1: [upsertCalendarEvents(timeline)] appends to the cell of a date key
    [k] the timeline items whose [datetime] starts with [k], in timeline
    order after the events already there; items with no date go nowhere,
    and no other cell changes. *)
Theorem upsert_cell_events (A : Type) (datetime : A -> option jsstr) (tl : list A)
    (cal : gmap jsstr (gmap jsstr (list A))) (ym k : jsstr) :
  cell_events (upsertCalendarEvents A datetime (Some tl) cal) ym k =
  cell_events cal ym k ++
  List.filter (fun x => bool_decide (item_key A datetime x = k /\ k <> [] /\ slice k 0 7 = ym)) tl.
Proof. apply upsert_cell_events_gen. Qed.

(** X2: restoring the same history record twice (each click of
    [renderHistoryList] calls [upsertCalendarEvents(rec.timeline)]) puts
    every dated item of it in its cell twice: the upsert does not
    deduplicate. *)
Theorem upsert_twice_duplicates (A : Type) (datetime : A -> option jsstr) (tl : list A)
    (cal : gmap jsstr (gmap jsstr (list A))) (ym k : jsstr) :
  let f := List.filter (fun x => bool_decide (item_key A datetime x = k /\ k <> [] /\ slice k 0 7 = ym)) tl in
  cell_events (upsertCalendarEvents A datetime (Some tl)
                 (upsertCalendarEvents A datetime (Some tl) cal)) ym k =
  cell_events cal ym k ++ f ++ f.
Proof. simpl. rewrite !upsert_cell_events_gen, app_assoc. reflexivity. Qed.

(** X3: [updateHomeCalendar] files events under two-character day keys
    ([dateStr.slice(8, 10)]), so a cell looked up by a full date key (as
    [calendarBlocksHTML] and the cell click do, with keys of length 10)
    neither gains the [has] mark nor gains events from it. *)
Theorem updateHomeCalendar_invisible_in_cells (itin : option (list itin_item)) (cal : calendar)
    (ym k : jsstr) :
  2 < length k ->
  cell_has (updateHomeCalendar itin cal) ym k = cell_has cal ym k /\
  cell_events (updateHomeCalendar itin cal) ym k = cell_events cal ym k.
Proof.
  intros Hk. rewrite !cell_has_bind. unfold cell_events.
  rewrite updateHomeCalendar_long_key by exact Hk. split; reflexivity.
Qed.

(** X4: every calendar cell [calendarBlocksHTML] emits has the class
    list [cal-cell], then [muted] for days outside the month, then [has];
    no cell carries the class [inMonth], so the selector
    [.cal-cell.inMonth] of [renderHome] matches no cell and no click
    handler is attached. *)
Theorem cal_cells_never_inMonth (inMonth has : bool) :
  class_tokens (cell_class inMonth has) =
    u "cal-cell" :: (if inMonth then [] else [u "muted"]) ++ (if has then [u "has"] else []) /\
  matches_cal_cell_inMonth (cell_class inMonth has) = false.
Proof. split; [apply split_spaces_cell_class|]. destruct inMonth, has; vm_compute; reflexivity. Qed.

(** X5: month navigation of [renderHome]. From a shown month [m] in
    0..11 of a year [y > 1], [▶] shows the next month, except that from
    December it shows the current month [nm] instead of January, because
    the stored month [0] reads as falsy; [◀] shows the previous
    month, except that from February it also shows [nm] instead of
    January. When the current month is not January, the shown month is
    never January. *)
Theorem month_navigation (st : nav_store) (ny nm y m : Z) :
  shown st ny nm = (y, m) -> (0 <= m <= 11)%Z -> (1 < y)%Z ->
  shown (click_next st ny nm) ny nm = (if Z.eqb m 11 then ((y + 1)%Z, nm) else (y, (m + 1)%Z)) /\
  shown (click_prev st ny nm) ny nm =
    (if Z.eqb m 0 then ((y - 1)%Z, 11%Z) else if Z.eqb m 1 then (y, nm) else (y, (m - 1)%Z)) /\
  (nm <> 0 -> snd (shown st ny nm) <> 0)%Z.
Proof.
  intros Hs Hm Hy.
  assert (H3 : (nm <> 0 -> snd (shown st ny nm) <> 0)%Z).
  { intros Hnm. unfold shown. simpl. destruct (ims_month st) as [v|]; simpl; [|exact Hnm].
    destruct (Z.eqb_spec v 0); lia. }
  unfold click_next, click_prev. split; [|split; [|exact H3]]; rewrite Hs.
  - destruct (Z.ltb_spec 11 (m + 1)); destruct (Z.eqb_spec m 11); try lia;
      unfold shown; simpl; repeat match goal with |- context [Z.eqb ?a 0] => destruct (Z.eqb_spec a 0); try lia end; reflexivity.
  - destruct (Z.ltb_spec (m - 1) 0); destruct (Z.eqb_spec m 0); try lia;
      [unfold shown; simpl; repeat match goal with |- context [Z.eqb ?a 0] => destruct (Z.eqb_spec a 0); try lia end; reflexivity|].
    destruct (Z.eqb_spec m 1); unfold shown; simpl;
      repeat match goal with |- context [Z.eqb ?a 0] => destruct (Z.eqb_spec a 0); try lia end; reflexivity.
Qed.

(** X6: [with_whom] of [buildOnboardingPayload] is
    [(p.with && p.with[0]) || p.with || ""]: an empty companion array is
    sent as the empty array, an array sends its first element when that is
    truthy and the whole array otherwise, and a string sends only its
    first character. *)
Theorem onboarding_with_whom (rest : list (string * jsval)) (prefs v : jsval) (vs : list jsval)
    (c : N) (s : jsstr) :
  with_whom (buildOnboardingPayload (JObj (("with", JArr []) :: rest)) prefs) = JArr [] /\
  with_whom (buildOnboardingPayload (JObj (("with", JArr (v :: vs)) :: rest)) prefs) =
    (if js_truthy v then v else JArr (v :: vs)) /\
  with_whom (buildOnboardingPayload (JObj (("with", JStr (c :: s)) :: rest)) prefs) = JStr [c].
Proof.
  split; [reflexivity|split; [|reflexivity]].
  simpl. unfold jor, jand, get. simpl. destruct (js_truthy v) eqn:E; simpl; rewrite ?E; reflexivity.
Qed.

(** X7: with no profile and no preferences stored (both falsy),
    [buildOnboardingPayload] sends the empty string for every profile
    field and the empty array for every preference list. *)
Theorem onboarding_defaults (profile prefs : jsval) :
  js_truthy profile = false -> js_truthy prefs = false ->
  buildOnboardingPayload profile prefs =
  mk_payload empty_str empty_str empty_str empty_str empty_str empty_str empty_str
             (JArr []) (JArr []) (JArr []) (JArr []).
Proof.
  intros Hp Hf.
  assert (E1 : jor profile (JObj []) = JObj []) by (unfold jor; rewrite Hp; reflexivity).
  assert (E2 : jor prefs (JObj []) = JObj []) by (unfold jor; rewrite Hf; reflexivity).
  unfold buildOnboardingPayload. rewrite E1, E2. reflexivity.
Qed.

(** X8: the gender code is translated: ["M"] is sent as ["남"], ["F"] as
    ["여"], and any other string is sent unchanged. *)
Theorem onboarding_gender (rest : list (string * jsval)) (prefs : jsval) (s : jsstr) :
  gender (buildOnboardingPayload (JObj (("gender", JStr (u "M")) :: rest)) prefs) = JStr (u "남") /\
  gender (buildOnboardingPayload (JObj (("gender", JStr (u "F")) :: rest)) prefs) = JStr (u "여") /\
  (s <> u "M" -> s <> u "F" ->
   gender (buildOnboardingPayload (JObj (("gender", JStr s) :: rest)) prefs) = JStr s).
Proof.
  split; [reflexivity|split; [reflexivity|]].
  intros HM HF. unfold buildOnboardingPayload. simpl.
  rewrite !bool_decide_false by assumption. unfold jor. simpl. destruct s; reflexivity.
Qed.

Lemma updateHomeCalendar_invisible_in_cells_witness :
  2 < length (u "2026-10-01") /\
  cell_has (updateHomeCalendar (Some [mk_itin_item 1 (Some (u "2026-10-01")) None (Some (u "x")) None]) ∅)
    (u "2026-10") (u "2026-10-01") = cell_has (∅ : calendar) (u "2026-10") (u "2026-10-01") /\
  cell_events (updateHomeCalendar (Some [mk_itin_item 1 (Some (u "2026-10-01")) None (Some (u "x")) None]) ∅)
    (u "2026-10") (u "2026-10-01") = cell_events (∅ : calendar) (u "2026-10") (u "2026-10-01").
Proof.
  assert (H : 2 < length (u "2026-10-01")) by (vm_compute; lia).
  split; [exact H|]. apply updateHomeCalendar_invisible_in_cells. exact H.
Defined.

Lemma month_navigation_witness :
  shown (mk_nav (Some 2026%Z) (Some 11%Z)) 2026 9 = (2026%Z, 11%Z) /\ (0 <= 11 <= 11)%Z /\ (1 < 2026)%Z /\
  shown (click_next (mk_nav (Some 2026%Z) (Some 11%Z)) 2026 9) 2026 9 =
    (if Z.eqb 11 11 then ((2026 + 1)%Z, 9%Z) else (2026%Z, (11 + 1)%Z)) /\
  shown (click_prev (mk_nav (Some 2026%Z) (Some 11%Z)) 2026 9) 2026 9 =
    (if Z.eqb 11 0 then ((2026 - 1)%Z, 11%Z) else if Z.eqb 11 1 then (2026%Z, 9%Z) else (2026%Z, (11 - 1)%Z)) /\
  (9 <> 0 -> snd (shown (mk_nav (Some 2026%Z) (Some 11%Z)) 2026 9) <> 0)%Z.
Proof.
  assert (H1 : shown (mk_nav (Some 2026%Z) (Some 11%Z)) 2026 9 = (2026%Z, 11%Z)) by reflexivity.
  assert (H2 : (0 <= 11 <= 11)%Z) by lia. assert (H3 : (1 < 2026)%Z) by lia.
  split; [exact H1|split; [exact H2|split; [exact H3|]]].
  exact (month_navigation (mk_nav (Some 2026%Z) (Some 11%Z)) 2026 9 2026 11 H1 H2 H3).
Defined.

Lemma onboarding_defaults_witness :
  js_truthy JNull = false /\ js_truthy (JStr []) = false /\
  buildOnboardingPayload JNull (JStr []) =
  mk_payload empty_str empty_str empty_str empty_str empty_str empty_str empty_str
             (JArr []) (JArr []) (JArr []) (JArr []).
Proof.
  split; [reflexivity|split; [reflexivity|]].
  apply onboarding_defaults; reflexivity.
Defined.

Lemma onboarding_gender_witness :
  gender (buildOnboardingPayload (JObj [("gender", JStr (u "M"))]) JUndef) = JStr (u "남") /\
  gender (buildOnboardingPayload (JObj [("gender", JStr (u "F"))]) JUndef) = JStr (u "여") /\
  gender (buildOnboardingPayload (JObj [("gender", JStr (u "X"))]) JUndef) = JStr (u "X").
Proof.
  destruct (onboarding_gender [] JUndef (u "X")) as (H1 & H2 & H3).
  split; [exact H1|split; [exact H2|]].
  apply H3; vm_compute; discriminate.
Defined.

(** *** Card checkboxes *)

Lemma Forall_filter_keep {B} (P : B -> Prop) (f : B -> bool) (l : list B) :
  Forall P l -> Forall P (List.filter f l).
Proof.
  rewrite !List.Forall_forall. intros H x Hx. apply List.filter_In in Hx. apply H, Hx.
Qed.

Lemma NoDup_map_filter {B C} (g : B -> C) (f : B -> bool) (l : list B) :
  NoDup (map g l) -> NoDup (map g (List.filter f l)).
Proof.
  induction l as [|x l IH]; simpl; [auto|]. intros Hn. inversion Hn as [|? ? Hx Hl]; subst.
  destruct (f x); simpl; [|apply IH, Hl]. constructor; [|apply IH, Hl].
  intros Hin. apply Hx. apply list_elem_of_In in Hin. apply list_elem_of_In.
  apply in_map_iff in Hin as (y & <- & Hy).
  apply in_map, (proj1 (List.filter_In f y l) Hy).
Qed.

Lemma filter_filter_length {B} (f g : B -> bool) (l : list B) :
  length (List.filter g (List.filter f l)) <= length (List.filter g l).
Proof. induction l as [|x l IH]; simpl; [lia|]. destruct (f x), (g x) eqn:E; simpl; rewrite ?E; simpl; lia. Qed.

Lemma filter_negb_nil {B} (g : B -> bool) (l : list B) :
  List.filter g (List.filter (fun c => negb (g c)) l) = [].
Proof. induction l as [|x l IH]; simpl; [reflexivity|]. destruct (g x) eqn:E; simpl; rewrite ?E; auto. Qed.

Lemma find_negb_None {B} (g : B -> bool) (l : list B) :
  List.find g (List.filter (fun c => negb (g c)) l) = None.
Proof. induction l as [|x l IH]; simpl; [reflexivity|]. destruct (g x) eqn:E; simpl; rewrite ?E; auto. Qed.

Lemma find_app_None {B} (g : B -> bool) (l1 l2 : list B) :
  List.find g l1 = None -> List.find g (l1 ++ l2) = List.find g l2.
Proof. induction l1 as [|x l1 IH]; simpl; [auto|]. destruct (g x); [discriminate|exact IH]. Qed.

Lemma chosen_ok_filter (jobs tours : list card) (f : chosen -> bool) (l : list chosen) :
  chosen_ok jobs tours l -> chosen_ok jobs tours (List.filter f l).
Proof.
  intros (H1 & H2 & H3 & H4). split; [|split; [|split]].
  - apply NoDup_map_filter, H1.
  - apply Forall_filter_keep, H2.
  - pose proof (filter_filter_length f (fun c => is_jobs (ch_kind c)) l). lia.
  - apply Forall_filter_keep, H4.
Qed.

Lemma strict_eq_str_true (v : jsval) (s : jsstr) : strict_eq_str v s = true -> v = JStr s.
Proof. destruct v; simpl; try discriminate. intros H. apply bool_decide_eq_true in H. congruence. Qed.

Lemma existsb_id_false (l : list chosen) (id : jsstr) :
  existsb (fun c => strict_eq_str (ch_id c) id) l = false -> JStr id ∉ map ch_id l.
Proof.
  intros H Hin. apply list_elem_of_In, in_map_iff in Hin as (c & Hc & Hcl).
  assert (Ht : existsb (fun c => strict_eq_str (ch_id c) id) l = true).
  { apply existsb_exists. exists c. split; [exact Hcl|]. rewrite Hc. simpl. apply bool_decide_eq_true. reflexivity. }
  congruence.
Qed.

Lemma checkbox_onchange_ok (jobs tours : list card) (l : list chosen) (e : checkbox_event) :
  chosen_ok jobs tours l -> chosen_ok jobs tours (checkbox_onchange jobs tours l e).
Proof.
  intros Hok. destruct e as [id kind|id]; simpl; [|apply chosen_ok_filter, Hok].
  set (chosen1 := if is_jobs kind then List.filter (fun c => negb (is_jobs (ch_kind c))) l else l).
  assert (Hok1 : chosen_ok jobs tours chosen1)
    by (unfold chosen1; destruct (is_jobs kind); [apply chosen_ok_filter|]; exact Hok).
  destruct (List.find _ _) as [item|] eqn:Hf; [|exact Hok1].
  destruct (existsb _ chosen1) eqn:Hex; [exact Hok1|].
  apply find_some in Hf as (Hin & Hid). apply strict_eq_str_true in Hid.
  destruct Hok1 as (H1 & H2 & H3 & H4). split; [|split; [|split]].
  - rewrite map_app. apply NoDup_app. split; [exact H1|split; [|constructor; [set_solver|constructor]]].
    intros x Hx Hx'. apply list_elem_of_singleton in Hx'. subst x.
    change (ch_id (mk_chosen kind item)) with (c_id item) in Hx. rewrite Hid in Hx. exact (existsb_id_false chosen1 id Hex Hx).
  - apply Forall_app. split; [exact H2|]. constructor; [exists id; exact Hid|constructor].
  - rewrite List.filter_app, length_app. simpl.
    destruct (is_jobs kind) eqn:Ek; simpl; [|lia].
    assert (Hz : List.filter (fun c => is_jobs (ch_kind c)) chosen1 = []).
    { unfold chosen1. try rewrite Ek. apply (filter_negb_nil (fun c => is_jobs (ch_kind c))). }
    rewrite Hz. simpl. lia.
  - apply Forall_app. split; [exact H4|]. constructor; [simpl; exact Hin|constructor].
Qed.

(** X9: the checkbox handler of [bindCardActions] keeps [STATE.chosenCards]
    well formed over any sequence of change events: card ids stay distinct
    strings, there is at most one farm ("jobs") card, and every chosen card
    is an item of the pool of its kind. *)
Theorem checkbox_events_keep_chosen_ok (jobs tours : list card) (l : list chosen)
    (es : list checkbox_event) :
  chosen_ok jobs tours l -> chosen_ok jobs tours (run_events jobs tours l es).
Proof.
  unfold run_events. revert l. induction es as [|e es IH]; intros l Hok; simpl; [exact Hok|].
  apply IH, checkbox_onchange_ok, Hok.
Qed.

(** X10: checking a farm card drops the farm card chosen before and
    makes the checked one the [selected_farm] of the [makePlan] payload,
    unless a non-farm card with the same id is already chosen, in which
    case no farm is selected any more; the [selected_tours] are unchanged. *)
Theorem check_farm_card (jobs tours : list card) (l : list chosen) (id : jsstr) :
  plan_selected_farm (checkbox_onchange jobs tours l (Checked id (u "jobs"))) =
    (if existsb (fun c => strict_eq_str (ch_id c) id)
                (List.filter (fun c => negb (is_jobs (ch_kind c))) l)
     then None else List.find (fun x => strict_eq_str (c_id x) id) jobs) /\
  plan_selected_tours (checkbox_onchange jobs tours l (Checked id (u "jobs"))) =
    plan_selected_tours l.
Proof.
  assert (Hj : is_jobs (u "jobs") = true) by (vm_compute; reflexivity).
  assert (Ht : forall l', plan_selected_tours (List.filter (fun c => negb (is_jobs (ch_kind c))) l') =
                          plan_selected_tours l').
  { intros l'. unfold plan_selected_tours. f_equal. induction l' as [|c l' IH]; simpl; [reflexivity|].
    destruct (is_jobs (ch_kind c)) eqn:E; simpl.
    - rewrite IH. unfold is_jobs in E. apply bool_decide_eq_true in E. rewrite E.
      rewrite bool_decide_false by (vm_compute; discriminate). reflexivity.
    - destruct (bool_decide (ch_kind c = u "tours")); simpl; rewrite IH; reflexivity. }
  unfold checkbox_onchange. rewrite !Hj.
  destruct (List.find (fun x => strict_eq_str (c_id x) id) jobs) as [item|] eqn:Hf.
  - destruct (existsb _ _) eqn:Hex.
    + split; [|apply Ht]. unfold plan_selected_farm.
      rewrite (find_negb_None (fun c => is_jobs (ch_kind c))). reflexivity.
    + split.
      * unfold plan_selected_farm.
        rewrite find_app_None by apply (find_negb_None (fun c => is_jobs (ch_kind c))).
        cbn [List.find ch_kind ch_raw option_map]. rewrite Hj. reflexivity.
      * rewrite <- (Ht l). unfold plan_selected_tours. rewrite List.filter_app. simpl.
        try rewrite bool_decide_false by (vm_compute; discriminate). rewrite app_nil_r. reflexivity.
  - split; [|apply Ht]. unfold plan_selected_farm.
    rewrite (find_negb_None (fun c => is_jobs (ch_kind c))).
    destruct (existsb _ _); reflexivity.
Qed.

(** X11: unchecking a card removes every chosen card with that id and
    keeps the others in order; checking a non-farm card never removes a
    chosen card and adds at most one, at the end. *)
Theorem checkbox_uncheck_and_check_tour (jobs tours : list card) (l : list chosen) (id kind : jsstr) :
  checkbox_onchange jobs tours l (Unchecked id) =
    List.filter (fun c => negb (strict_eq_str (ch_id c) id)) l /\
  (JStr id ∉ map ch_id (checkbox_onchange jobs tours l (Unchecked id))) /\
  (is_jobs kind = false ->
   exists ext, checkbox_onchange jobs tours l (Checked id kind) = l ++ ext /\ length ext <= 1).
Proof.
  split; [reflexivity|split].
  - simpl. intros Hin. apply list_elem_of_In, in_map_iff in Hin as (c & Hc & Hcl).
    apply List.filter_In in Hcl as [_ Hn]. rewrite Hc in Hn. simpl in Hn.
    rewrite bool_decide_true in Hn by reflexivity. discriminate.
  - intros Hk. simpl. rewrite Hk.
    destruct (List.find _ _); [|exists []; rewrite app_nil_r; split; [reflexivity|simpl; lia]].
    destruct (existsb _ _); [exists []; rewrite app_nil_r; split; [reflexivity|simpl; lia]|].
    eexists; split; [reflexivity|simpl; lia].
Qed.

Lemma checkbox_events_keep_chosen_ok_witness :
  chosen_ok [] [] [] /\ chosen_ok [] [] (run_events [] [] [] [Checked (u "f1") (u "jobs"); Unchecked (u "t1")]).
Proof.
  assert (H : chosen_ok [] [] []).
  { split; [constructor|split; [constructor|split; [simpl; lia|constructor]]]. }
  split; [exact H|]. apply checkbox_events_keep_chosen_ok, H.
Defined.

Lemma checkbox_uncheck_and_check_tour_witness :
  is_jobs (u "tours") = false /\
  exists ext, checkbox_onchange [] [mk_card (JStr (u "t1")) (u "tours") []] [] (Checked (u "t1") (u "tours")) =
              [] ++ ext /\ length ext <= 1.
Proof.
  assert (H : is_jobs (u "tours") = false) by (vm_compute; reflexivity).
  split; [exact H|].
  destruct (checkbox_uncheck_and_check_tour [] [mk_card (JStr (u "t1")) (u "tours") []] [] (u "t1") (u "tours"))
    as (_ & _ & H3).
  apply H3, H.
Defined.

(** *** The engine and the schedule calls *)

(** X12: [callEngine] rejects exactly when [loadConfig()] rejects or the
    config has no [endpoints] object ([undefined] or [null]). Otherwise it
    resolves: to the parsed body of an ok response, as it is, and to
    [mockPlan(payload)] on every failure inside the [try] (a rejected
    [fetch], a non-ok status, a body that is not JSON). *)
Theorem callEngine_outcomes (md : Z -> jsstr) (cfg : option jsval) (kind : string)
    (payload : jsval) (outcome : fetch_outcome) :
  (callEngine md cfg kind payload outcome = None <->
   cfg = None \/ exists c, cfg = Some c /\ (get c "endpoints" = JUndef \/ get c "endpoints" = JNull)) /\
  (forall c, cfg = Some c -> get c "endpoints" <> JUndef -> get c "endpoints" <> JNull ->
   (forall v, outcome = FetchResponse true (Some v) ->
      callEngine md cfg kind payload outcome = Some v) /\
   ((forall v, outcome <> FetchResponse true (Some v)) ->
      callEngine md cfg kind payload outcome = Some (mockPlan md payload))).
Proof.
  split.
  - unfold callEngine.
    destruct cfg as [c|]; [destruct (get c "endpoints") eqn:E|];
      destruct outcome as [|[] [v|]]; split.
    all: try (intros _; reflexivity).
    all: try solve [intros _; first [left; reflexivity | right; exists c; auto]].
    all: try (intros H; discriminate H).
    all: solve [intros [H|(c' & Hc & [H|H])]; [discriminate H|injection Hc as <-; congruence..]].
  - intros c -> Hu Hn. unfold callEngine.
    destruct (get c "endpoints"); try congruence;
      (split; [intros v ->; reflexivity|]);
      (intros Hout; destruct outcome as [|[] [v|]];
         [reflexivity|exfalso; exact (Hout v eq_refl)|reflexivity..]).
Qed.

(** X13: what a schedule response leaves in [STATE] does not depend on
    the state before, except the itinerary id: [last_schedule],
    [timeline] and [calendar] are replaced, not merged, so a response
    without a [calendar] (and without an itinerary id) empties the
    calendar; the itinerary id becomes the response's when it has a
    truthy one and is kept as it was otherwise. *)
Theorem apply_schedule_response_replaces (data : jsval) (st1 st2 : app_state) :
  last_schedule (apply_schedule_response data st1) = last_schedule (apply_schedule_response data st2) /\
  timeline (apply_schedule_response data st1) = timeline (apply_schedule_response data st2) /\
  calendar_st (apply_schedule_response data st1) = calendar_st (apply_schedule_response data st2) /\
  (get (jor (jor (get data "data") data) (JObj [])) "calendar" = JUndef ->
   js_truthy (get (jor (jor (get data "data") data) (JObj [])) "itinerary_id") = false ->
   calendar_st (apply_schedule_response data st1) = JObj []) /\
  (js_truthy (get (jor (jor (get data "data") data) (JObj [])) "itinerary_id") = true ->
   last_itinerary_id (apply_schedule_response data st1) =
     get (jor (jor (get data "data") data) (JObj [])) "itinerary_id") /\
  (js_truthy (get (jor (jor (get data "data") data) (JObj [])) "itinerary_id") = false ->
   last_itinerary_id (apply_schedule_response data st1) = last_itinerary_id st1).
Proof.
  unfold apply_schedule_response.
  destruct (js_truthy (get (jor (jor (get data "data") data) (JObj [])) "itinerary_id")) eqn:E.
  - split; [reflexivity|split; [reflexivity|split; [reflexivity|split; [|split]]]].
    + intros _ H. discriminate.
    + intros _. reflexivity.
    + intros H. discriminate.
  - split; [reflexivity|split; [reflexivity|split; [reflexivity|split; [|split]]]].
    + intros H _. simpl. rewrite H. reflexivity.
    + intros H. discriminate.
    + intros _. reflexivity.
Qed.

Lemma mock_response (md : Z -> jsstr) (body : jsval) (st : app_state) :
  apply_schedule_response (mockPlan md body) st =
  mk_app_state (last_itinerary_id st) (mockPlan md body) (mock_timeline md) (JObj []).
Proof. reflexivity. Qed.

(** X14: when the engine call does not succeed ([fetch] rejects, the
    status is not ok or the body is not JSON), [createScheduleWithUser]
    and [sendScheduleFeedback] either reject or store the mock plan: the
    timeline becomes the three mock entries and the calendar becomes
    empty, while the itinerary id is kept. *)
Theorem schedule_calls_fallback (md : Z -> jsstr) (cfg : option jsval) (body : jsval)
    (outcome : fetch_outcome) (st : app_state) :
  (forall v, outcome <> FetchResponse true (Some v)) ->
  (createScheduleWithUser md cfg body outcome st = None \/
   createScheduleWithUser md cfg body outcome st =
     Some (mk_app_state (last_itinerary_id st) (mockPlan md body) (mock_timeline md) (JObj []))) /\
  (sendScheduleFeedback md cfg body outcome st = None \/
   sendScheduleFeedback md cfg body outcome st =
     Some (mk_app_state (last_itinerary_id st) (mockPlan md body) (mock_timeline md) (JObj []))).
Proof.
  intros Hout.
  assert (Hc : forall kind, callEngine md cfg kind body outcome = None \/
                            callEngine md cfg kind body outcome = Some (mockPlan md body)).
  { intros kind. unfold callEngine. destruct cfg as [c|]; [|left; reflexivity].
    destruct (get c "endpoints"); try (left; reflexivity);
      (destruct outcome as [|[] [v|]]; [right; reflexivity|exfalso; exact (Hout v eq_refl)|right; reflexivity..]). }
  unfold createScheduleWithUser, sendScheduleFeedback.
  split; [destruct (Hc "plan") as [H|H]|destruct (Hc "revise") as [H|H]]; rewrite H; simpl;
    [left; reflexivity|right; rewrite mock_response; reflexivity|left; reflexivity|right; rewrite mock_response; reflexivity].
Qed.

Lemma schedule_calls_fallback_witness :
  (forall v, FetchRejected <> FetchResponse true (Some v)) /\
  createScheduleWithUser (fun _ => []) (Some (JObj [("endpoints", JObj [])])) JUndef FetchRejected
    (mk_app_state JNull JNull JNull (JObj [("2026-10", JObj [])])) =
    Some (mk_app_state JNull (mockPlan (fun _ => []) JUndef) (mock_timeline (fun _ => [])) (JObj [])).
Proof.
  assert (H : forall v, FetchRejected <> FetchResponse true (Some v)) by (intros v; discriminate).
  split; [exact H|].
  destruct (schedule_calls_fallback (fun _ => []) (Some (JObj [("endpoints", JObj [])])) JUndef FetchRejected
              (mk_app_state JNull JNull JNull (JObj [("2026-10", JObj [])])) H) as [[H1|H1] _].
  - discriminate H1.
  - exact H1.
Defined.

Lemma apply_schedule_response_replaces_witness :
  calendar_st (apply_schedule_response (JObj [("timeline", JArr [])])
                 (mk_app_state (JStr (u "it-1")) JNull JNull (JObj [("2026-10", JObj [])]))) = JObj [] /\
  last_itinerary_id (apply_schedule_response (JObj [("timeline", JArr [])])
                 (mk_app_state (JStr (u "it-1")) JNull JNull (JObj [("2026-10", JObj [])]))) = JStr (u "it-1").
Proof.
  destruct (apply_schedule_response_replaces (JObj [("timeline", JArr [])])
              (mk_app_state (JStr (u "it-1")) JNull JNull (JObj [("2026-10", JObj [])]))
              (mk_app_state JNull JNull JNull (JObj []))) as (_ & _ & _ & H & _ & H').
  split; [apply H; reflexivity|apply H'; reflexivity].
Defined.

(** *** The farm rows of [renderScheduleTable] *)

Lemma string_app_assoc (a b c : string) : ((a ++ b) ++ c)%string = (a ++ (b ++ c))%string.
Proof.
  induction a as [|x a IH]; [reflexivity|].
  change (String.append (String x a) b) with (String x (String.append a b)).
  change (String.append (String x (String.append a b)) c) with (String x (String.append (String.append a b) c)).
  change (String.append (String x a) (String.append b c)) with (String x (String.append a (String.append b c))).
  rewrite IH. reflexivity.
Qed.

Lemma existsb_eqb_in (k : string) (seen : list string) : existsb (String.eqb k) seen = true <-> In k seen.
Proof.
  rewrite existsb_exists. split.
  - intros (k' & Hin & He). apply String.eqb_eq in He. subst. exact Hin.
  - intros Hin. exists k. split; [exact Hin|apply String.eqb_refl].
Qed.

Lemma uniqueItems_sublist (seen : list string) (l : list Grouping.item) :
  uniqueItems seen l `sublist_of` l.
Proof.
  revert seen. induction l as [|x l IH]; intros seen; simpl; [constructor|].
  destruct (existsb _ _); [apply sublist_cons, IH|apply sublist_skip, IH].
Qed.

Lemma uniqueItems_fresh (seen : list string) (l : list Grouping.item) :
  NoDup (map farm_key (uniqueItems seen l)) /\
  (forall x, In x (uniqueItems seen l) -> ~ In (farm_key x) seen).
Proof.
  revert seen. induction l as [|x l IH]; intros seen; simpl; [split; [constructor|tauto]|].
  destruct (existsb (String.eqb (farm_key x)) seen) eqn:E; [apply IH|].
  destruct (IH (farm_key x :: seen)) as [Hn Hf]. split.
  - simpl. constructor; [|exact Hn].
    intros Hin. apply list_elem_of_In, in_map_iff in Hin as (y & Hy & Hyl).
    apply (Hf y Hyl). rewrite Hy. left. reflexivity.
  - intros y [<-|Hy].
    + intros Hin. apply existsb_eqb_in in Hin. congruence.
    + intros Hin. apply (Hf y Hy). right. exact Hin.
Qed.

Lemma uniqueItems_covers (seen : list string) (l : list Grouping.item) (y : Grouping.item) :
  In y l -> ~ In (farm_key y) seen -> exists x, In x (uniqueItems seen l) /\ farm_key x = farm_key y.
Proof.
  revert seen. induction l as [|x l IH]; intros seen Hy Hs; simpl in Hy |- *; [contradiction|].
  destruct (existsb (String.eqb (farm_key x)) seen) eqn:E.
  - destruct Hy as [<-|Hy].
    + apply existsb_eqb_in in E. contradiction.
    + apply IH; assumption.
  - destruct (String.eqb_spec (farm_key x) (farm_key y)) as [Hk|Hk].
    + exists x. split; [left; reflexivity|exact Hk].
    + destruct Hy as [<-|Hy]; [congruence|].
      destruct (IH (farm_key x :: seen) Hy) as (z & Hz & Hzk).
      * intros [H|H]; [congruence|contradiction].
      * exists z. split; [right; exact Hz|exact Hzk].
Qed.

Lemma uniqueItems_first (seen : list string) (l : list Grouping.item) (x : Grouping.item) :
  In x (uniqueItems seen l) -> List.find (fun y => String.eqb (farm_key y) (farm_key x)) l = Some x.
Proof.
  revert seen. induction l as [|z l IH]; intros seen Hx; simpl in Hx |- *; [contradiction|].
  pose proof (proj2 (uniqueItems_fresh seen (z :: l)) x) as Hfr. simpl in Hfr.
  destruct (existsb (String.eqb (farm_key z)) seen) eqn:E.
  - destruct (String.eqb_spec (farm_key z) (farm_key x)) as [Hk|Hk].
    + exfalso. apply (Hfr Hx). rewrite <- Hk. apply existsb_eqb_in, E.
    + apply (IH seen Hx).
  - destruct Hx as [<-|Hx]; [rewrite String.eqb_refl; reflexivity|].
    destruct (String.eqb_spec (farm_key z) (farm_key x)) as [Hk|Hk].
    + exfalso. apply (proj2 (uniqueItems_fresh (farm_key z :: seen) l) x Hx). left. exact Hk.
    + apply (IH _ Hx).
Qed.

(** X15: a farm group shows each farm once: the rows [uniqueItems] keeps
    are a sub-sequence of the group's items with pairwise distinct keys
    [name-address], every key of the group has a row, and the row kept for
    a key is the first item with that key. *)
Theorem uniqueItems_spec (l : list Grouping.item) :
  uniqueItems [] l `sublist_of` l /\
  NoDup (map farm_key (uniqueItems [] l)) /\
  (forall y, In y l -> exists x, In x (uniqueItems [] l) /\ farm_key x = farm_key y) /\
  (forall x, In x (uniqueItems [] l) ->
     List.find (fun y => String.eqb (farm_key y) (farm_key x)) l = Some x).
Proof.
  split; [apply uniqueItems_sublist|split; [apply uniqueItems_fresh|split]].
  - intros y Hy. apply (uniqueItems_covers [] l y Hy). simpl. tauto.
  - intros x Hx. apply (uniqueItems_first [] l x Hx).
Qed.

(** X16: the key [`${item.name}-${item.address}`] does not tell two
    farms apart when a dash can move between the name and the address:
    the second of two such farms gets no row. *)
Theorem uniqueItems_key_collision (x y : Grouping.item) (a b c : string) :
  Grouping.name x = (a ++ "-" ++ b)%string -> Grouping.address x = c ->
  Grouping.name y = a -> Grouping.address y = (b ++ "-" ++ c)%string ->
  uniqueItems [] [x; y] = [x].
Proof.
  intros H1 H2 H3 H4.
  assert (Hk : farm_key y = farm_key x).
  { unfold farm_key. rewrite H1, H2, H3, H4. rewrite !string_app_assoc. reflexivity. }
  simpl. rewrite Hk, String.eqb_refl. reflexivity.
Qed.

Lemma uniqueItems_key_collision_witness :
  uniqueItems [] [Grouping.mk_item 1 "2026-10-16" "농가" "A-B" "09:00" "C";
                  Grouping.mk_item 1 "2026-10-16" "농가" "A" "09:00" "B-C"] =
  [Grouping.mk_item 1 "2026-10-16" "농가" "A-B" "09:00" "C"].
Proof.
  apply (uniqueItems_key_collision _ _ "A" "B" "C"); reflexivity.
Defined.

End FrontEndFacts.
